(** * Scene-change detection and frame de-duplication

    A shallow embedding of [VideoProcessor] from [video_processor.py]:
    [__init__], [extract_frames_with_changes] and
    [remove_duplicate_frames], with the properties of the two passes.

    Modelling conventions.
    - Python [int] is [Z]; [//] and [%] are [Z.div] and [Z.modulo], which
      floor like Python's.
    - Python [float] is [Q]: scores, thresholds and times are rationals, so
      comparisons are exact and there is no NaN.  [a > b] is written
      [Qgt_bool a b] and [a >= b] is [Qle_bool b a].
    - The numeric kernels (MobileNet features, SSIM, the dot product), the
      decoder and the wall clock are parameters: the code only calls them.
    - A progress dictionary is a [gmap string PVal]; the snapshots handed to
      [progress_callback] are collected in call order. *)

From Stdlib Require Import ZArith QArith Lia.
From stdpp Require Import base list sorting gmap strings.

Local Open Scope Z_scope.

(** ** Values and dictionaries *)

Inductive PVal : Type :=
| VStr (s : string)
| VInt (z : Z)
| VNum (q : Q)
| VBool (b : bool).

Abbreviation Snapshot := (gmap string PVal).

Definition Qgt_bool (a b : Q) : bool := negb (Qle_bool a b).

(** [x / y if y > 0 else 0], the guarded division used for every rate. *)
Definition div_if_pos (x y : Q) : PVal :=
  if Qgt_bool y 0 then VNum (x / y) else VInt 0.

Definition num_of (v : PVal) : Q :=
  match v with
  | VNum q => q
  | VInt z => inject_Z z
  | _ => 0%Q
  end.

Inductive Result (A : Type) : Type :=
| Returned (a : A)
| Raised (exc : string).
Arguments Returned {A} a.
Arguments Raised {A} exc.

(** ** The numeric kernels the processor calls

    [Raster] is a decoded RGB picture (a numpy array, or the PIL image
    wrapping it); [Feat] is a MobileNet feature vector. *)

Class Kernels : Type := {
  Raster : Type;
  Feat : Type;
  Raster_eq_dec :: EqDecision Raster;
  (** [frame_rgb.shape], as (height, width). *)
  shape : Raster -> Z * Z;
  (** The module flag set by the guarded TensorFlow import. *)
  TENSORFLOW_AVAILABLE : bool;
  (** Whether building and compiling MobileNet in [__init__] succeeds. *)
  mobilenet_loads : bool;
  (** resize to 224x224, [preprocess_input], run the model, [.numpy()[0]];
      [feature_extract_fn] and [feature_model] compute the same vector. *)
  extract_features : Raster -> Feat;
  (** [v / (np.linalg.norm(v) + 1e-8)] *)
  normalize : Feat -> Feat;
  (** [np.dot] *)
  dot : Feat -> Feat -> Q;
  (** grayscale, resize to 256x256, [ssim(a, b, data_range=255)] *)
  ssim256 : Raster -> Raster -> Q;
  (** The body of the [try] at lines 399-417: BGR conversion, resize,
      preprocess, model, normalisation; [None] when it raises. *)
  try_features : Raster -> option Feat;
  (** The body of the [try] at lines 488-505 up to the SSIM score, called
      as [try_ssim unique current]; [None] when it raises. *)
  try_ssim : Raster -> Raster -> option Q
}.

Section Processor.

Context `{K : Kernels}.

(** *** Frame dictionaries *)

(** The ['image'] entry: absent, present but not a [PIL.Image], or an
    image. *)
Inductive ImageEntry : Type :=
| ImageMissing
| ImageOther
| PilImage (r : Raster).

Record Frame : Type := mkFrame {
  frame_number : Z;
  timestamp : Q;
  image : ImageEntry;
  width : Z;
  height : Z
}.

Definition image_eqb (a b : ImageEntry) : bool :=
  match a, b with
  | ImageMissing, ImageMissing => true
  | ImageOther, ImageOther => true
  | PilImage r, PilImage s => bool_decide (r = s)
  | _, _ => false
  end.

(** [f == g] on frame dictionaries: every entry equal, floats by value. *)
Definition frame_eqb (f g : Frame) : bool :=
  (frame_number f =? frame_number g)
  && Qeq_bool (timestamp f) (timestamp g)
  && image_eqb (image f) (image g)
  && (width f =? width g)
  && (height f =? height g).

(** *** The processor object *)

Record VideoProcessor : Type := mkProcessor {
  change_threshold : Q;
  min_frame_interval : Z;
  frame_skip : Z;
  self_frames : list Frame;
  use_ml : bool;
  feature_model : bool   (* [self.feature_model is not None] *)
}.

(** [__init__]: [frame_skip] is clamped to at least 1, and [use_ml] is
    switched off when TensorFlow is missing or the model fails to load.
    (When loading fails half-way [feature_model] may already be set; every
    use of it is guarded by [use_ml], which is then off.) *)
Definition init (change_threshold : Q) (min_frame_interval : Z)
    (use_ml : bool) (frame_skip : Z) : VideoProcessor :=
  let ok := use_ml && TENSORFLOW_AVAILABLE && mobilenet_loads in
  {| change_threshold := change_threshold;
     min_frame_interval := min_frame_interval;
     frame_skip := Z.max 1 frame_skip;
     self_frames := [];
     use_ml := ok;
     feature_model := ok |}.

(** *** The frame source *)

(** What [cv2.VideoCapture] reports and delivers once opened. *)
Record Video : Type := mkVideo {
  fps : Q;
  total_frames : Z;          (* [int(CAP_PROP_FRAME_COUNT)] *)
  stream : list Raster       (* the frames [cap.read()] returns, in order *)
}.

(** *** extract_frames_with_changes *)

(** The local variables of the loop, the number of [time.time()] calls
    made so far, and the snapshots passed to the callback so far. *)
Record Locals : Type := mkLocals {
  frames : list Frame;
  prev_frame_rgb : option Raster;
  prev_frame_features : option Feat;
  frame_count : Z;
  processed_frame_count : Z;
  last_change_processed_frame : Z;
  last_progress_update : Q;
  ticks : nat;
  emitted : list Snapshot
}.

Record Outcome : Type := mkOutcome {
  result : Result (list Frame);
  progress : list Snapshot;
  self_after : VideoProcessor
}.

Section Extract.
Variable self : VideoProcessor.
Variable v : Video.
Variable clock : nat -> Q.
Variable progress_callback : bool.
Variable stop_check : option (nat -> bool).

Definition video_duration : PVal :=
  div_if_pos (inject_Z (total_frames v)) (fps v).

Definition start_time : Q := clock 0%nat.

Definition percentage_at (frame_count : Z) : PVal :=
  if 0 <? total_frames v
  then VNum (inject_Z frame_count / inject_Z (total_frames v) * 100)
  else VInt 0.

Definition initializing_snapshot : Snapshot :=
  <["stage" := VStr "initializing"]>
  (<["current_frame" := VInt 0]>
  (<["total_frames" := VInt (total_frames v)]>
  (<["percentage" := VNum 0]>
  (<["frames_detected" := VInt 0]>
  (<["fps" := VNum (fps v)]>
  (<["video_duration" := video_duration]>
  (<["elapsed_time" := VNum 0]>
  (<["estimated_remaining" := VNum 0]>
  (<["processing_speed" := VNum 0]> ∅))))))))).

Definition stopped_snapshot (st : Locals) : Snapshot :=
  <["stage" := VStr "stopped"]>
  (<["current_frame" := VInt (frame_count st)]>
  (<["total_frames" := VInt (total_frames v)]>
  (<["percentage" := percentage_at (frame_count st)]>
  (<["frames_detected" := VInt (Z.of_nat (length (frames st)))]>
  (<["fps" := VNum (fps v)]>
  (<["video_duration" := video_duration]>
  (<["elapsed_time" := VNum (clock (ticks st) - start_time)]>
  (<["estimated_remaining" := VNum 0]>
  (<["processing_speed" := VNum 0]>
  (<["stopped" := VBool true]>
  (<["message" := VStr "Processing stopped by user. You can continue processing to extract more frames."]>
   ∅))))))))))).

Definition effective_total_frames : Z :=
  total_frames v / frame_skip self
  + (if 0 <? total_frames v mod frame_skip self then 1 else 0).

Definition extracting_snapshot (frame_count processed : Z)
    (detected : nat) (elapsed_time : Q) : Snapshot :=
  let processing_speed := div_if_pos (inject_Z processed) elapsed_time in
  let estimated_remaining :=
    div_if_pos (inject_Z (effective_total_frames - processed))
               (num_of processing_speed) in
  <["stage" := VStr "extracting"]>
  (<["current_frame" := VInt frame_count]>
  (<["total_frames" := VInt (total_frames v)]>
  (<["percentage" := percentage_at frame_count]>
  (<["frames_detected" := VInt (Z.of_nat detected)]>
  (<["fps" := VNum (fps v)]>
  (<["video_duration" := video_duration]>
  (<["elapsed_time" := VNum elapsed_time]>
  (<["estimated_remaining" := estimated_remaining]>
  (<["processing_speed" := processing_speed]> ∅))))))))).

Definition completed_snapshot (detected : nat) (total_elapsed : Q)
    : Snapshot :=
  <["stage" := VStr "completed"]>
  (<["current_frame" := VInt (total_frames v)]>
  (<["total_frames" := VInt (total_frames v)]>
  (<["percentage" := VNum 100]>
  (<["frames_detected" := VInt (Z.of_nat detected)]>
  (<["fps" := VNum (fps v)]>
  (<["video_duration" := video_duration]>
  (<["elapsed_time" := VNum total_elapsed]>
  (<["estimated_remaining" := VNum 0]>
  (<["processing_speed" :=
       div_if_pos (inject_Z (total_frames v)) total_elapsed]> ∅))))))))).

Definition emit (s : Snapshot) (log : list Snapshot) : list Snapshot :=
  if progress_callback then log ++ [s] else log.

Definition min_processed_interval : Z :=
  Z.max 1 (min_frame_interval self / frame_skip self).

(** The record appended for an accepted frame (lines 251-264). *)
Definition frame_data (frame_count : Z) (frame_rgb : Raster) : Frame :=
  {| frame_number := frame_count;
     timestamp := num_of (div_if_pos (inject_Z frame_count) (fps v));
     image := PilImage frame_rgb;
     width := snd (shape frame_rgb);
     height := fst (shape frame_rgb) |}.

(** Lines 176-247: the scene-change test for a frame that passed the
    spacing check.  Returns [is_scene_change] and the updated
    [prev_frame_rgb] and [prev_frame_features].  ([last_change_frame] is
    assigned there and never read; it is left out.) *)
Definition detect (st : Locals) (frame_rgb : Raster)
    : bool * option Raster * option Feat :=
  if use_ml self && feature_model self then
    match prev_frame_features st with
    | Some prev =>
        let current_features := extract_features frame_rgb in
        let cosine_sim :=
          dot (normalize current_features) (normalize prev) in
        let difference := (1 - cosine_sim)%Q in
        (Qgt_bool difference (change_threshold self),
         prev_frame_rgb st, Some current_features)
    | None =>
        (true, prev_frame_rgb st, Some (extract_features frame_rgb))
    end
  else
    match prev_frame_rgb st with
    | Some prev =>
        let difference := (1 - ssim256 prev frame_rgb)%Q in
        (Qgt_bool difference (change_threshold self),
         Some frame_rgb, prev_frame_features st)
    | None => (true, Some frame_rgb, prev_frame_features st)
    end.

(** One pass through the loop body for a frame that [cap.read()]
    delivered (lines 158-293). *)
Definition body (st : Locals) (frame : Raster) : Locals :=
  if negb (frame_count st mod frame_skip self =? 0) then
    mkLocals (frames st) (prev_frame_rgb st) (prev_frame_features st)
      (frame_count st + 1) (processed_frame_count st)
      (last_change_processed_frame st) (last_progress_update st)
      (ticks st) (emitted st)
  else
    let frame_rgb := frame in
    let processed := processed_frame_count st + 1 in
    let frames_since_last_change :=
      processed - last_change_processed_frame st - 1 in
    if frames_since_last_change <? min_processed_interval then
      mkLocals (frames st) (prev_frame_rgb st) (prev_frame_features st)
        (frame_count st + 1) processed
        (last_change_processed_frame st) (last_progress_update st)
        (ticks st) (emitted st)
    else
      let '(is_scene_change, prev_rgb, prev_features) :=
        detect st frame_rgb in
      let last_change :=
        if is_scene_change then processed
        else last_change_processed_frame st in
      let frames' :=
        if is_scene_change
        then frames st ++ [frame_data (frame_count st) frame_rgb]
        else frames st in
      let frame_count' := frame_count st + 1 in
      let current_time := clock (ticks st) in
      let elapsed_time := (current_time - start_time)%Q in
      let time_since_last_update :=
        (current_time - last_progress_update st)%Q in
      if (processed mod 10 =? 0)
         || Qle_bool (1 # 2) time_since_last_update
      then
        mkLocals frames' prev_rgb prev_features frame_count' processed
          last_change current_time (S (ticks st))
          (emit (extracting_snapshot frame_count' processed
                   (length frames') elapsed_time) (emitted st))
      else
        mkLocals frames' prev_rgb prev_features frame_count' processed
          last_change (last_progress_update st) (S (ticks st))
          (emitted st).

Definition stop_requested (poll : nat) : bool :=
  match stop_check with
  | Some answer => answer poll
  | None => false
  end.

(** The [while True] loop.  [poll] counts the times the loop head has
    been reached, so [stop_check]'s answer there is its [poll]-th.
    [rest] is what the decoder has still to deliver; when it is
    exhausted [cap.read()] fails and the loop breaks. *)
Fixpoint loop (poll : nat) (st : Locals) (rest : list Raster) : Outcome :=
  if stop_requested poll then
    {| result := Returned (frames st);
       progress :=
         if progress_callback
         then emitted st ++ [stopped_snapshot st]
         else emitted st;
       self_after := self |}
  else
    match rest with
    | [] =>
        let total_elapsed := (clock (ticks st) - start_time)%Q in
        {| result := Returned (frames st);
           progress :=
             emit (completed_snapshot (length (frames st)) total_elapsed)
                  (emitted st);
           self_after :=
             mkProcessor (change_threshold self) (min_frame_interval self)
               (frame_skip self) (frames st) (use_ml self)
               (feature_model self) |}
    | frame :: rest' => loop (S poll) (body st frame) rest'
    end.

Definition initial : Locals :=
  {| frames := [];
     prev_frame_rgb := None;
     prev_frame_features := None;
     frame_count := 0;
     processed_frame_count := 0;
     last_change_processed_frame := - min_frame_interval self;
     last_progress_update := 0;
     ticks := 1;
     emitted := emit initializing_snapshot [] |}.

End Extract.

(** [cap] is [None] when [cap.isOpened()] is false. *)
Definition extract_frames_with_changes (self : VideoProcessor)
    (cap : option Video) (clock : nat -> Q) (progress_callback : bool)
    (stop_check : option (nat -> bool)) : Outcome :=
  match cap with
  | None =>
      {| result := Raised "ValueError";
         progress := [];
         self_after := self |}
  | Some v =>
      loop self v clock progress_callback stop_check 0
        (initial self v progress_callback) (stream v)
  end.

(** *** remove_duplicate_frames *)

(** [frame_features_dict] and [frame_images_dict], keyed by the position in
    [frames].  A stored [None] and an absent key read the same through
    [.get]. *)
Record Prepared : Type := mkPrepared {
  frame_features_dict : gmap nat (option Feat);
  frame_images_dict : gmap nat Raster
}.

Definition get_features (d : Prepared) (idx : nat) : option Feat :=
  default None (frame_features_dict d !! idx).

Definition get_image (d : Prepared) (idx : nat) : option Raster :=
  frame_images_dict d !! idx.

(** One round of the loop at lines 385-422. *)
Definition prepare_frame (self : VideoProcessor) (idx : nat) (frame : Frame)
    (d : Prepared) : Prepared :=
  match image frame with
  | PilImage frame_array =>
      let images := <[idx := frame_array]> (frame_images_dict d) in
      if use_ml self && feature_model self && TENSORFLOW_AVAILABLE then
        {| frame_features_dict :=
             <[idx := try_features frame_array]> (frame_features_dict d);
           frame_images_dict := images |}
      else
        {| frame_features_dict := <[idx := None]> (frame_features_dict d);
           frame_images_dict := images |}
  | _ => d
  end.

Fixpoint prepare (self : VideoProcessor) (idx : nat) (frames : list Frame)
    (d : Prepared) : Prepared :=
  match frames with
  | [] => d
  | frame :: rest => prepare self (S idx) rest (prepare_frame self idx frame d)
  end.

(** Lines 456-460: the first position of [frames] holding a dictionary
    equal to [unique_frame]. *)
Fixpoint find_index (frames : list Frame) (unique_frame : Frame) (i : nat)
    : option nat :=
  match frames with
  | [] => None
  | f :: rest =>
      if frame_eqb f unique_frame then Some i
      else find_index rest unique_frame (S i)
  end.

Inductive Strategy : Type := Cosine | Ssim.

(** A call of a scorer: which one, for the candidate at position
    [cmp_idx], against the data stored at position [cmp_unique_idx]. *)
Record Comparison : Type := mkComparison {
  cmp_strategy : Strategy;
  cmp_idx : nat;
  cmp_unique_idx : nat
}.

(** The variables the inner loop updates. *)
Record Scan : Type := mkScan {
  is_duplicate : bool;
  duplicates_removed : Z;
  comparisons : list Comparison
}.

(** Lines 465-513 for one kept frame whose position was found.  The second
    component tells whether a [break] was taken. *)
Definition compare_pair (self : VideoProcessor) (similarity_threshold : Q)
    (d : Prepared) (idx unique_list_idx : nat)
    (current_features : option Feat) (current_array : option Raster)
    (acc : Scan) : Scan * bool :=
  let unique_features := get_features d unique_list_idx in
  let unique_array := get_image d unique_list_idx in
  let after_ml : Scan * bool :=
    match use_ml self, current_features, unique_features with
    | true, Some cf, Some uf =>
        let similarity := dot cf uf in
        let log := comparisons acc ++ [mkComparison Cosine idx unique_list_idx] in
        if Qle_bool similarity_threshold similarity
        then (mkScan true (duplicates_removed acc + 1) log, true)
        else (mkScan (is_duplicate acc) (duplicates_removed acc) log, false)
    | _, _, _ => (acc, false)
    end in
  if snd after_ml then after_ml
  else
    let acc := fst after_ml in
    match is_duplicate acc, current_array, unique_array with
    | false, Some ca, Some ua =>
        let log := comparisons acc ++ [mkComparison Ssim idx unique_list_idx] in
        match try_ssim ua ca with
        | Some ssim_score =>
            if Qle_bool similarity_threshold ssim_score
            then (mkScan true (duplicates_removed acc + 1) log, true)
            else (mkScan false (duplicates_removed acc) log, false)
        | None => (mkScan false (duplicates_removed acc) log, false)
        end
    | _, _, _ => (acc, false)
    end.

(** The inner loop at lines 453-513 over [unique_frames]. *)
Fixpoint compare_with_unique (self : VideoProcessor) (similarity_threshold : Q)
    (d : Prepared) (frames : list Frame) (idx : nat)
    (current_features : option Feat) (current_array : option Raster)
    (unique_frames : list Frame) (acc : Scan) : Scan :=
  match unique_frames with
  | [] => acc
  | unique_frame :: rest =>
      match find_index frames unique_frame 0 with
      | None =>
          compare_with_unique self similarity_threshold d frames idx
            current_features current_array rest acc
      | Some unique_list_idx =>
          let '(acc', broke) :=
            compare_pair self similarity_threshold d idx unique_list_idx
              current_features current_array acc in
          if broke then acc'
          else
            compare_with_unique self similarity_threshold d frames idx
              current_features current_array rest acc'
      end
  end.

(** The variables of the outer loop, with the snapshots sent so far. *)
Record Dedup : Type := mkDedup {
  unique_frames : list Frame;
  removed : Z;
  compared : list Comparison;
  reported : list Snapshot
}.

Definition dedup_snapshot (current_frame total_frames : Z) (percentage : Q)
    (frames_after_dedup : nat) : Snapshot :=
  <["stage" := VStr "removing_duplicates"]>
  (<["current_frame" := VInt current_frame]>
  (<["total_frames" := VInt total_frames]>
  (<["percentage" := VNum percentage]>
  (<["frames_detected" := VInt total_frames]>
  (<["frames_after_dedup" := VInt (Z.of_nat frames_after_dedup)]> ∅))))).

(** The loop at lines 427-517; [pending] is [frames[idx:]]. *)
Fixpoint dedup_loop (self : VideoProcessor) (similarity_threshold : Q)
    (progress_callback : bool) (d : Prepared) (frames : list Frame)
    (idx : nat) (pending : list Frame) (st : Dedup) : Dedup :=
  match pending with
  | [] => st
  | current_frame :: pending' =>
      let total_frames := Z.of_nat (length frames) in
      let reported' :=
        if progress_callback && (Z.of_nat idx mod 10 =? 0)
        then reported st
               ++ [dedup_snapshot (Z.of_nat idx) total_frames
                     (inject_Z (Z.of_nat idx) / inject_Z total_frames * 100)
                     (length (unique_frames st))]
        else reported st in
      match image current_frame with
      | PilImage _ =>
          let scan :=
            compare_with_unique self similarity_threshold d frames idx
              (get_features d idx) (get_image d idx) (unique_frames st)
              (mkScan false (removed st) (compared st)) in
          dedup_loop self similarity_threshold progress_callback d frames
            (S idx) pending'
            (mkDedup
               (if is_duplicate scan then unique_frames st
                else unique_frames st ++ [current_frame])
               (duplicates_removed scan) (comparisons scan) reported')
      | _ =>
          dedup_loop self similarity_threshold progress_callback d frames
            (S idx) pending'
            (mkDedup (unique_frames st) (removed st) (compared st) reported')
      end
  end.

Definition remove_duplicate_frames (self : VideoProcessor)
    (frames : list Frame) (similarity_threshold : Q)
    (progress_callback : bool) : Dedup :=
  match frames with
  | [] | [_] => mkDedup frames 0 [] []
  | first :: pending =>
      let total_frames := Z.of_nat (length frames) in
      let reported0 :=
        if progress_callback
        then [dedup_snapshot 0 total_frames 0 0]
        else [] in
      let d := prepare self 0 frames (mkPrepared ∅ ∅) in
      let st :=
        dedup_loop self similarity_threshold progress_callback d frames 1
          pending (mkDedup [first] 0 [] reported0) in
      mkDedup (unique_frames st) (removed st) (compared st)
        (if progress_callback
         then reported st
                ++ [<["duplicates_removed" := VInt (removed st)]>
                    (dedup_snapshot total_frames total_frames 100
                       (length (unique_frames st)))]
         else reported st)
  end.

(** *** The accessors *)

(** [get_frame_by_index]: the bounds are tested first, so a negative index
    raises instead of counting from the end. *)
Definition get_frame_by_index (self : VideoProcessor) (index : Z)
    : Result Frame :=
  if (0 <=? index) && (index <? Z.of_nat (length (self_frames self))) then
    match self_frames self !! Z.to_nat index with
    | Some frame => Returned frame
    | None => Raised "IndexError"
    end
  else Raised "IndexError".

(** [clear].  ([frame_metadata] is set to the empty list once more; nothing
    ever reads or fills it.) *)
Definition clear (self : VideoProcessor) : VideoProcessor :=
  mkProcessor (change_threshold self) (min_frame_interval self)
    (frame_skip self) [] (use_ml self) (feature_model self).

Section Thumbnails.

(** The encoded picture, and what PIL does with an image: copy it, shrink
    it to fit [max_size] with LANCZOS resampling and save it as JPEG
    (quality 92); it returns the bytes or raises. *)
Context {Jpeg : Type}.
Variable thumbnail_jpeg : Raster -> Z * Z -> Result Jpeg.

(** [get_frame_thumbnail]: ['image'] is looked up without a guard, and the
    value is used as an image without a test. *)
Definition get_frame_thumbnail (frame_data : Frame) (max_size : Z * Z)
    : Result Jpeg :=
  match image frame_data with
  | ImageMissing => Raised "KeyError"
  | ImageOther => Raised "AttributeError"
  | PilImage r => thumbnail_jpeg r max_size
  end.

(** A list comprehension whose element expression can raise: the first
    exception ends it. *)
Fixpoint comprehension {A B : Type} (f : A -> Result B) (l : list A)
    : Result (list B) :=
  match l with
  | [] => Returned []
  | x :: l' =>
      match f x with
      | Raised exc => Raised exc
      | Returned y =>
          match comprehension f l' with
          | Raised exc => Raised exc
          | Returned ys => Returned (y :: ys)
          end
      end
  end.

Definition get_all_thumbnails (self : VideoProcessor) (max_size : Z * Z)
    : Result (list Jpeg) :=
  comprehension (fun frame => get_frame_thumbnail frame max_size)
    (self_frames self).

End Thumbnails.

(** *** The background job of the web application

    [process_video_background] of [app.py].  The session dictionary is a
    record of the entries the job touches; a progress value may be Python's
    [None], so the progress dictionary maps to [option PVal].  The job runs
    in a thread of its own: the values it reads from ['stop_requested'],
    which the [/stop] handler sets, are inputs ([stop_flag] for the polls
    of the extraction, [stop_after] for the test after it), and the session
    is taken to stay registered while the job runs.  The thumbnail pool is
    modelled by its final effect, which does not depend on the order in
    which the workers finish. *)

Record Thumbnail : Type := mkThumbnail {
  thumb_frame_number : Z;
  thumb_timestamp : Q;
  thumb_width : Z;
  thumb_height : Z;
  thumb_data : string
}.

Record Session : Type := mkSession {
  session_frames : option (list Frame);          (* [None] until processed *)
  session_processor : option VideoProcessor;
  session_thumbnails : option (list Thumbnail);  (* absent until made *)
  session_progress : gmap string (option PVal)
}.

(** [sessions[session_id]['progress'].update(progress_data)] *)
Definition update_progress (progress : gmap string (option PVal))
    (progress_data : Snapshot) : gmap string (option PVal) :=
  (Some <$> progress_data) ∪ progress.

(** The validation loop at lines 134-154 of [app.py]. *)
Fixpoint validate (frames : list Frame) : list Frame :=
  match frames with
  | [] => []
  | frame :: rest =>
      match image frame with
      | PilImage _ => frame :: validate rest
      | _ => validate rest
      end
  end.

Section Application.

Context {Jpeg : Type}.
Variable thumbnail_jpeg : Raster -> Z * Z -> Result Jpeg.
(** [base64.b64encode(bytes).decode('utf-8')] *)
Variable b64encode : Jpeg -> string.

(** The body of the [try] that makes one preview entry; [None] when it
    raises. *)
Definition preview (frame : Frame) : option Thumbnail :=
  match get_frame_thumbnail thumbnail_jpeg frame (400, 300) with
  | Returned thumbnail_bytes =>
      Some {| thumb_frame_number := frame_number frame;
              thumb_timestamp := timestamp frame;
              thumb_width := width frame;
              thumb_height := height frame;
              thumb_data :=
                "data:image/jpeg;base64," +:+ b64encode thumbnail_bytes |}
  | Raised _ => None
  end.

(** The previews of the frames whose entry could be made, in order. *)
Fixpoint previews (frames : list Frame) : list Thumbnail :=
  match frames with
  | [] => []
  | frame :: rest =>
      match preview frame with
      | Some entry => entry :: previews rest
      | None => previews rest
      end
  end.

(** The [except] handler at lines 254-257. *)
Definition failed (session : Session) (message : string) : Session :=
  mkSession (session_frames session) (session_processor session)
    (session_thumbnails session)
    (<["stage" := Some (VStr "error")]>
       (<["error" := Some (VStr message)]> (session_progress session))).

Definition process_video_background (session : option Session)
    (filepath : string) (threshold : Q) (min_interval frame_skip : Z)
    (cap : option Video) (clock : nat -> Q) (stop_flag : nat -> bool)
    (stop_after : bool) : option Session :=
  match session with
  | None => None
  | Some session =>
      let processor := init threshold min_interval true frame_skip in
      let run :=
        extract_frames_with_changes processor cap clock true (Some stop_flag) in
      let session :=
        mkSession (session_frames session) (session_processor session)
          (session_thumbnails session)
          (foldl update_progress (session_progress session) (progress run)) in
      match result run with
      | Raised _ =>
          Some (failed session ("Could not open video file: " +:+ filepath))
      | Returned frames =>
          let processor := self_after run in
          let deduplicated := (1 <? length frames)%nat in
          let dedup :=
            remove_duplicate_frames processor frames (95 # 100) true in
          let frames :=
            if deduplicated then unique_frames dedup else frames in
          let session :=
            if deduplicated then
              mkSession (session_frames session) (session_processor session)
                (session_thumbnails session)
                (foldl update_progress (session_progress session)
                   (reported dedup))
            else session in
          let validated_frames := validate frames in
          let session :=
            match validated_frames with
            | _ :: _ =>
                mkSession (Some validated_frames) (Some processor)
                  (session_thumbnails session) (session_progress session)
            | [] =>
                mkSession (Some []) (session_processor session)
                  (session_thumbnails session) (session_progress session)
            end in
          if stop_after then
            let stored_frames := default [] (session_frames session) in
            let thumbnails := previews stored_frames in
            Some
              (mkSession (session_frames session) (session_processor session)
                 (match thumbnails with
                  | _ :: _ => Some thumbnails
                  | [] => session_thumbnails session
                  end)
                 (<["error" := None]>
                    (<["message" :=
                         Some (VStr "Processing stopped by user. You can continue processing to extract more frames.")]>
                       (<["stopped" := Some (VBool true)]>
                          (<["stage" := Some (VStr "stopped")]>
                             (session_progress session))))))
          else
            let session :=
              mkSession (session_frames session) (session_processor session)
                (session_thumbnails session)
                (<["percentage" := Some (VNum 90)]>
                   (<["stage" := Some (VStr "generating_thumbnails")]>
                      (session_progress session))) in
            let total_frames := Z.of_nat (length frames) in
            if total_frames =? 0 then
              (* [ThreadPoolExecutor(max_workers=0)] raises [ValueError] *)
              Some (failed session "max_workers must be greater than 0")
            else
              let thumbnails := previews frames in
              Some
                (mkSession (session_frames session)
                   (session_processor session) (Some thumbnails)
                   (<["completed" := Some (VBool true)]>
                      (<["percentage" := Some (VNum 100)]>
                         (<["stage" := Some (VStr "completed")]>
                            (update_progress (session_progress session)
                               (<["stage" := VStr "generating_thumbnails"]>
                                  (<["percentage" :=
                                       VNum (90 + inject_Z total_frames
                                                  / inject_Z total_frames * 10)]>
                                     (<["frames_detected" := VInt total_frames]>
                                        ∅))))))))
      end
  end.

End Application.

(** *** The generators' selection

    [create_from_selected_indices] of [pdf_generator.py] and of
    [pptx_generator.py], which read the same: the frames at the selected
    indices that lie within the list, handed to [create_presentation].
    Subscripting is written with the exception Python raises out of
    range; the document itself is made by the PDF or PPTX library. *)

Section Generators.

Context {Document : Type}.
Variable create_presentation : list Frame -> Result Document.

(** [[all_frames[i] for i in selected_indices if 0 <= i < len(all_frames)]] *)
Fixpoint selected_frames (all_frames : list Frame) (selected_indices : list Z)
    : Result (list Frame) :=
  match selected_indices with
  | [] => Returned []
  | i :: rest =>
      if (0 <=? i) && (i <? Z.of_nat (length all_frames)) then
        match all_frames !! Z.to_nat i with
        | None => Raised "IndexError"
        | Some frame =>
            match selected_frames all_frames rest with
            | Raised exc => Raised exc
            | Returned l => Returned (frame :: l)
            end
        end
      else selected_frames all_frames rest
  end.

Definition create_from_selected_indices (all_frames : list Frame)
    (selected_indices : list Z) : Result Document :=
  match selected_frames all_frames selected_indices with
  | Raised exc => Raised exc
  | Returned frames => create_presentation frames
  end.

End Generators.

(** ** Vocabulary of the properties *)

(** The list a call returned; empty when it raised. *)
Definition returned (o : Outcome) : list Frame :=
  match result o with
  | Returned l => l
  | Raised _ => []
  end.

(** [frame_number] strictly increasing along the list. *)
Definition increasing (l : list Frame) : Prop :=
  StronglySorted (fun a b => frame_number a < frame_number b) l.

(** The processed frames lying strictly between two decoded positions:
    with [frame_skip = n] the processed frames are the decoded positions
    [0, n, 2n, ...], so position [p] is processed frame number [p / n]. *)
Definition processed_between (self : VideoProcessor) (a b : Frame) : Z :=
  frame_number b / frame_skip self - frame_number a / frame_skip self - 1.

(** Every two neighbours of the list have at least
    [min_processed_interval] processed frames between them. *)
Definition spaced (self : VideoProcessor) (l : list Frame) : Prop :=
  forall (i : nat) (a b : Frame),
    l !! i = Some a -> l !! S i = Some b ->
    min_processed_interval self <= processed_between self a b.

(** What the comparison data of a frame is, whatever position it has. *)
Definition features_of (self : VideoProcessor) (f : Frame) : option Feat :=
  match image f with
  | PilImage r =>
      if use_ml self && feature_model self && TENSORFLOW_AVAILABLE
      then try_features r else None
  | _ => None
  end.

Definition array_of (f : Frame) : option Raster :=
  match image f with
  | PilImage r => Some r
  | _ => None
  end.

Definition has_image (f : Frame) : bool :=
  match image f with
  | PilImage _ => true
  | _ => false
  end.

(** The cosine test of a candidate [c] against a kept frame [u]: it is
    made when ML is on and both feature vectors exist. *)
Definition cosine_match (self : VideoProcessor) (t : Q) (c u : Frame) : bool :=
  match use_ml self, features_of self c, features_of self u with
  | true, Some cf, Some uf => Qle_bool t (dot cf uf)
  | _, _, _ => false
  end.

(** The SSIM test: made when both pictures exist; a raising comparison
    flags nothing. *)
Definition ssim_match (t : Q) (c u : Frame) : bool :=
  match array_of c, array_of u with
  | Some ca, Some ua =>
      match try_ssim ua ca with
      | Some s => Qle_bool t s
      | None => false
      end
  | _, _ => false
  end.

Definition is_match (self : VideoProcessor) (t : Q) (c u : Frame) : bool :=
  cosine_match self t c u || ssim_match t c u.

(** The candidates of [pending] that get appended to [kept]. *)
Fixpoint survivors (self : VideoProcessor) (t : Q) (kept pending : list Frame)
    : list Frame :=
  match pending with
  | [] => []
  | c :: pending' =>
      if has_image c && negb (existsb (is_match self t c) kept)
      then c :: survivors self t (kept ++ [c]) pending'
      else survivors self t kept pending'
  end.

(** The loop variables that decide which frames are accepted; the clock
    and the progress log are left out. *)
Definition core (st : Locals)
    : list Frame * option Raster * option Feat * Z * Z * Z :=
  (frames st, prev_frame_rgb st, prev_frame_features st, frame_count st,
   processed_frame_count st, last_change_processed_frame st).

(** What holds of the loop variables each time the loop head is reached. *)
Definition invariant (self : VideoProcessor) (st : Locals) : Prop :=
  0 <= frame_count st /\
  (processed_frame_count st - 1) * frame_skip self < frame_count st /\
  frame_count st <= processed_frame_count st * frame_skip self /\
  Forall (fun f => frame_number f < frame_count st) (frames st) /\
  Forall (fun f => frame_number f mod frame_skip self = 0) (frames st) /\
  increasing (frames st) /\
  spaced self (frames st) /\
  (forall a, last (frames st) = Some a ->
     last_change_processed_frame st = frame_number a / frame_skip self + 1).

(** The list [remove_duplicate_frames] keeps, told without positions. *)
Definition kept_frames (self : VideoProcessor) (t : Q) (frames : list Frame)
    : list Frame :=
  match frames with
  | [] => []
  | first :: pending => first :: survivors self t [first] pending
  end.


(** The two ways the loop ends, from the variables it ends with. *)
Definition stopped_outcome (self : VideoProcessor) (v : Video)
    (clock : nat -> Q) (cb : bool) (st : Locals) : Outcome :=
  {| result := Returned (frames st);
     progress :=
       if cb then emitted st ++ [stopped_snapshot v clock st] else emitted st;
     self_after := self |}.

Definition completed_outcome (self : VideoProcessor) (v : Video)
    (clock : nat -> Q) (cb : bool) (st : Locals) : Outcome :=
  {| result := Returned (frames st);
     progress :=
       emit cb
         (completed_snapshot v (length (frames st))
            (clock (ticks st) - start_time clock)) (emitted st);
     self_after :=
       mkProcessor (change_threshold self) (min_frame_interval self)
         (frame_skip self) (frames st) (use_ml self) (feature_model self) |}.

(** The frame record holds the picture decoded at its frame number, with
    that picture's dimensions. *)
Definition carries (pictures : list Raster) (f : Frame) : Prop :=
  0 <= frame_number f /\
  exists r,
    pictures !! Z.to_nat (frame_number f) = Some r /\
    image f = PilImage r /\
    width f = snd (shape r) /\ height f = fst (shape r).

(** The score the detector compares with [change_threshold], for the
    picture scored last and the current one. *)
Definition difference (self : VideoProcessor) (prev cur : Raster) : Q :=
  if use_ml self && feature_model self
  then (1 - dot (normalize (extract_features cur))
                (normalize (extract_features prev)))%Q
  else (1 - ssim256 prev cur)%Q.

(** An integer entry of a snapshot. *)
Definition int_field (key : string) (s : Snapshot) : Z :=
  match s !! key with
  | Some (VInt z) => z
  | _ => 0
  end.

End Processor.

(** ** A small instance to compute with

    Pictures are numbered.  A picture scores 1 against itself; pictures 0
    and 1 score 0.6; picture 1 scores 0.85 against pictures 2 and 3, which
    score 0.45 against each other; every other pair scores 0.3.  (With the
    distance [sqrt (1 - score)] these scores obey the triangle
    inequality.)  MobileNet is not installed. *)

Definition toy_ssim (a b : nat) : Q :=
  if (a =? b)%nat then 1
  else
    match Nat.min a b, Nat.max a b with
    | 0%nat, 1%nat => 6 # 10
    | 1%nat, 2%nat | 1%nat, 3%nat => 85 # 100
    | 2%nat, 3%nat => 45 # 100
    | _, _ => 3 # 10
    end.

Definition toy : Kernels :=
  {| Raster := nat;
     Feat := nat;
     shape := fun _ => (480, 640);
     TENSORFLOW_AVAILABLE := false;
     mobilenet_loads := false;
     extract_features := fun r => r;
     normalize := fun x => x;
     dot := fun a b => toy_ssim a b;
     ssim256 := toy_ssim;
     try_features := fun r => Some r;
     try_ssim := fun a b => Some (toy_ssim a b) |}.

(** The frame record the detector would build for picture [r] at decoded
    position [n] of a 25 fps stream. *)
Definition toy_frame (n : Z) (r : nat) : @Frame toy :=
  @mkFrame toy n (inject_Z n / 25) (@PilImage toy r) 640 480.

Definition toy_video (pictures : list nat) : @Video toy :=
  @mkVideo toy 25 (Z.of_nat (length pictures)) pictures.

(** The same pictures with MobileNet installed, and feature vectors that
    are pairwise orthogonal (cosine similarity 0). *)
Definition toy_ml : Kernels :=
  {| Raster := nat;
     Feat := nat;
     shape := fun _ => (480, 640);
     TENSORFLOW_AVAILABLE := true;
     mobilenet_loads := true;
     extract_features := fun r => r;
     normalize := fun x => x;
     dot := fun _ _ => 0%Q;
     ssim256 := toy_ssim;
     try_features := fun r => Some r;
     try_ssim := fun a b => Some (toy_ssim a b) |}.

Definition toy_ml_frame (n : Z) (r : nat) : @Frame toy_ml :=
  @mkFrame toy_ml n (inject_Z n / 25) (@PilImage toy_ml r) 640 480.



(** A clock that advances one second per reading. *)
Definition toy_clock (n : nat) : Q := inject_Z (Z.of_nat n).

(** A processor with the default threshold and spacing, SSIM only. *)
Definition toy_processor : @VideoProcessor toy := @init toy (3 # 10) 30 false 1.

(** A session as [process_video] leaves it when it starts the job, with
    the progress entries the job's outcome is read from. *)
Definition toy_session : @Session toy :=
  @mkSession toy None None None
    (<["stage" := Some (VStr "starting")]>
       (<["error" := None]> (<["completed" := Some (VBool false)]> ∅))).

(** Thumbnails that always encode, and their base64 text. *)
Definition toy_jpeg (r : nat) (max_size : Z * Z) : Result nat := Returned r.

Definition toy_b64 (b : nat) : string := "/9j/".

(** ** Properties of extract_frames_with_changes *)

Section ExtractFacts.

Context `{K : Kernels}.
Variable self : VideoProcessor.
Variable v : Video.

(** What one pass through the loop body does to the deciding variables:
    the frame is passed over, or it is appended and becomes the last
    change. *)
Lemma body_cases clock cb st frame :
  let st' := body self v clock cb st frame in
  frame_count st' = frame_count st + 1 /\
  ((frames st' = frames st /\
    last_change_processed_frame st' = last_change_processed_frame st /\
    ((frame_count st mod frame_skip self <> 0 /\
      processed_frame_count st' = processed_frame_count st) \/
     (frame_count st mod frame_skip self = 0 /\
      processed_frame_count st' = processed_frame_count st + 1))) \/
   (frames st' = frames st ++ [frame_data v (frame_count st) frame] /\
    frame_count st mod frame_skip self = 0 /\
    processed_frame_count st' = processed_frame_count st + 1 /\
    last_change_processed_frame st' = processed_frame_count st + 1 /\
    min_processed_interval self
      <= processed_frame_count st - last_change_processed_frame st)).
Proof.
  unfold body.
  destruct (Z.eqb_spec (frame_count st mod frame_skip self) 0) as [Hm|Hm];
    simpl; [|split; [reflexivity|left; auto]].
  destruct (Z.ltb_spec
              (processed_frame_count st + 1 - last_change_processed_frame st - 1)
              (min_processed_interval self)) as [Hlt|Hge];
    simpl; [split; [reflexivity|left; auto]|].
  destruct (detect self st frame) as [[change rgb] feats].
  destruct change;
    destruct ((processed_frame_count st + 1) mod 10 =? 0);
    destruct (Qle_bool (1 # 2) (clock (ticks st) - last_progress_update st));
    simpl; (split; [reflexivity|]);
    first [right; repeat split; auto; lia | left; auto].
Qed.

(** The deciding variables evolve the same way whatever the clock says and
    whether or not progress is reported. *)
Lemma body_core clock1 clock2 cb1 cb2 st1 st2 frame :
  core st1 = core st2 ->
  core (body self v clock1 cb1 st1 frame)
  = core (body self v clock2 cb2 st2 frame).
Proof.
  destruct st1, st2; unfold core; simpl; intros Heq.
  inversion Heq; subst; clear Heq.
  unfold body, detect; simpl.
  repeat match goal with
         | |- context [if ?b then _ else _] => destruct b; simpl
         | |- context [match ?o with Some _ => _ | None => _ end] =>
             destruct o; simpl
         end; reflexivity.
Qed.

Lemma frames_prefix_body clock cb st frame :
  frames st `prefix_of` frames (body self v clock cb st frame).
Proof.
  destruct (body_cases clock cb st frame) as [_ [(-> & _)|(-> & _)]].
  - reflexivity.
  - by apply prefix_app_r.
Qed.

(** The list only grows: what a state holds is a prefix of what the loop
    started there returns. *)
Lemma frames_prefix_loop clock cb sc rest :
  forall poll st,
    frames st `prefix_of` returned (loop self v clock cb sc poll st rest).
Proof.
  induction rest as [|frame rest IH]; intros poll st; simpl;
    destruct (stop_requested sc poll); simpl; try reflexivity.
  etrans; [apply (frames_prefix_body clock cb st frame)|apply IH].
Qed.

(** An interrupted loop returns a prefix of what the uninterrupted loop
    returns from the same deciding variables. *)
Lemma loop_stop_prefix clock1 clock2 cb1 cb2 sc rest :
  forall poll1 poll2 st1 st2,
    core st1 = core st2 ->
    returned (loop self v clock1 cb1 sc poll1 st1 rest)
    `prefix_of` returned (loop self v clock2 cb2 None poll2 st2 rest).
Proof.
  induction rest as [|frame rest IH]; intros poll1 poll2 st1 st2 Hcore.
  - assert (frames st1 = frames st2) as Hf by (unfold core in Hcore; congruence).
    simpl. destruct (stop_requested sc poll1); simpl; by rewrite Hf.
  - cbn [loop]. change (stop_requested None poll2) with false. cbv iota.
    destruct (stop_requested sc poll1).
    + assert (frames st1 = frames st2) as Hf
        by (unfold core in Hcore; congruence).
      change (returned _) with (frames st1) at 1. rewrite Hf.
      etrans; [apply (frames_prefix_body clock2 cb2 st2 frame)|].
      apply frames_prefix_loop.
    + apply IH. by apply body_core.
Qed.

(** Once [stop_check] answers true at a poll the loop reaches, the loop
    returns its list, and the [stopped] snapshot is the last one sent. *)
Lemma loop_stops clock cb sc rest :
  forall poll st (k : nat),
    (poll <= k <= poll + length rest)%nat ->
    sc k = true ->
    exists st',
      loop self v clock cb (Some sc) poll st rest
      = {| result := Returned (frames st');
           progress :=
             if cb then emitted st' ++ [stopped_snapshot v clock st']
             else emitted st';
           self_after := self |}.
Proof.
  induction rest as [|frame rest IH]; intros poll st k Hk Hsc.
  - simpl in Hk. assert (k = poll) as -> by lia.
    exists st. simpl. by rewrite Hsc.
  - cbn [loop stop_requested]. destruct (sc poll) eqn:Hp.
    + by exists st.
    + apply (IH (S poll) _ k); [|done].
      assert (k <> poll) by congruence. simpl in Hk. lia.
Qed.

Lemma increasing_snoc (l : list Frame) (b : Frame) :
  increasing l ->
  Forall (fun f => frame_number f < frame_number b) l ->
  increasing (l ++ [b]).
Proof.
  intros Hl Hb. apply StronglySorted_app_2; [|done|].
  - intros a c Ha Hc. apply list_elem_of_singleton in Hc as ->.
    by apply (proj1 (Forall_forall _ _) Hb).
  - repeat constructor.
Qed.

Lemma spaced_snoc (l : list Frame) (b : Frame) :
  spaced self l ->
  (forall a, last l = Some a ->
     min_processed_interval self <= processed_between self a b) ->
  spaced self (l ++ [b]).
Proof.
  intros Hl Hb i x y Hx Hy.
  destruct (decide (S i < length l)%nat) as [Hlt|Hge].
  - rewrite lookup_app_l in Hx by lia. rewrite lookup_app_l in Hy by lia.
    by apply (Hl i).
  - assert (S i = length l) as Hi.
    { apply lookup_lt_Some in Hy. rewrite length_app in Hy. simpl in Hy. lia. }
    rewrite lookup_app_l in Hx by lia.
    rewrite lookup_app_r in Hy by lia.
    replace (S i - length l)%nat with 0%nat in Hy by lia.
    simpl in Hy. injection Hy as <-.
    apply Hb. rewrite last_lookup. by replace (pred (length l)) with i by lia.
Qed.

Section Spacing.

Hypothesis skip_pos : 1 <= frame_skip self.

Lemma invariant_initial cb : invariant self (initial self v cb).
Proof.
  unfold invariant, initial; simpl.
  repeat split; try lia; try constructor.
  - intros i a b Ha; by rewrite lookup_nil in Ha.
  - intros a Ha; discriminate.
Qed.

(** A decoded position that is processed is [frame_skip] times the number
    of frames processed before it. *)
Lemma processed_position (p n : Z) :
  (p - 1) * frame_skip self < n ->
  n <= p * frame_skip self ->
  n mod frame_skip self = 0 ->
  n = p * frame_skip self.
Proof.
  intros Hlo Hhi Hm.
  pose proof (Z.div_mod n (frame_skip self) ltac:(lia)) as Hd.
  rewrite Hm, Z.add_0_r in Hd.
  set (q := n / frame_skip self) in *.
  assert (p - 1 < q) by (apply (Z.mul_lt_mono_pos_r (frame_skip self)); lia).
  assert (q <= p) by (apply (Z.mul_le_mono_pos_r _ _ (frame_skip self)); lia).
  assert (q = p) as -> by lia. lia.
Qed.

Lemma invariant_body clock cb st frame :
  invariant self st -> invariant self (body self v clock cb st frame).
Proof.
  intros (Hc & Hlo & Hhi & Hbound & Hmult & Hinc & Hsp & Hlast).
  destruct (body_cases clock cb st frame)
    as [Hcount [(Hf & Hl & Hp)|(Hf & Hm & Hp & Hl & Hgap)]];
    unfold invariant; rewrite Hcount, Hf, Hl.
  - assert ((processed_frame_count (body self v clock cb st frame) - 1)
              * frame_skip self < frame_count st + 1
            /\ frame_count st + 1
               <= processed_frame_count (body self v clock cb st frame)
                  * frame_skip self) as [? ?].
    { destruct Hp as [[Hm ->]|[Hm ->]].
      - split; [lia|].
        destruct (decide (frame_count st
                          = processed_frame_count st * frame_skip self))
          as [Heq|?]; [|lia].
        rewrite Heq, Z.mod_mul in Hm by lia. done.
      - pose proof (processed_position _ _ Hlo Hhi Hm). nia. }
    repeat split; try done; try lia.
    eapply Forall_impl; [exact Hbound|]. simpl; intros; lia.
  - rewrite Hp.
    pose proof (processed_position _ _ Hlo Hhi Hm) as Hpos.
    assert (frame_count st / frame_skip self = processed_frame_count st) as Hq.
    { rewrite Hpos at 1. apply Z.div_mul. lia. }
    repeat split; try lia; try nia.
    + apply Forall_app; split.
      * eapply Forall_impl; [exact Hbound|]. simpl; intros; lia.
      * repeat constructor. simpl. lia.
    + apply Forall_app; split; [done|]. by repeat constructor.
    + apply increasing_snoc; [done|]. exact Hbound.
    + apply spaced_snoc; [done|].
      intros a Ha. unfold processed_between. simpl.
      rewrite Hq. specialize (Hlast a Ha). lia.
    + intros a. rewrite last_snoc. intros [= <-]. simpl. lia.
Qed.

(** The loop returns the list of a state satisfying the invariant. *)
Lemma loop_invariant clock cb sc rest :
  forall poll st,
    invariant self st ->
    exists st',
      invariant self st' /\
      result (loop self v clock cb sc poll st rest) = Returned (frames st').
Proof.
  induction rest as [|frame rest IH]; intros poll st Hst; simpl;
    destruct (stop_requested sc poll); simpl; eauto.
  apply IH. by apply invariant_body.
Qed.

End Spacing.

End ExtractFacts.

(** ** Properties of remove_duplicate_frames *)

Section DedupFacts.

Context `{K : Kernels}.
Variable self : VideoProcessor.

Lemma image_eqb_eq (a b : ImageEntry) : image_eqb a b = true -> a = b.
Proof.
  destruct a, b; simpl; try done.
  intros Hd. apply bool_decide_eq_true in Hd. by subst.
Qed.

Lemma frame_eqb_image (f g : Frame) :
  frame_eqb f g = true -> image f = image g.
Proof.
  unfold frame_eqb. rewrite !andb_true_iff.
  intros [[[_ Hi] _] _]. by apply image_eqb_eq.
Qed.

Lemma frame_eqb_refl (f : Frame) : frame_eqb f f = true.
Proof.
  unfold frame_eqb. rewrite !Z.eqb_refl.
  assert (Qeq_bool (timestamp f) (timestamp f) = true) as ->
    by (apply Qeq_bool_iff; reflexivity).
  assert (image_eqb (image f) (image f) = true) as ->; [|done].
  destruct (image f); simpl; try done. by apply bool_decide_eq_true.
Qed.

(** The position search succeeds for a member of the list and lands on a
    dictionary equal to it. *)
Lemma find_index_spec (frames : list Frame) (u : Frame) :
  forall i0,
    u ∈ frames ->
    exists (i : nat) (f : Frame),
      find_index frames u i0 = Some (i0 + i)%nat /\
      frames !! i = Some f /\ frame_eqb f u = true.
Proof.
  induction frames as [|f frames IH]; intros i0 Hin.
  - by apply not_elem_of_nil in Hin.
  - simpl. destruct (frame_eqb f u) eqn:He.
    + exists 0%nat, f. by rewrite Nat.add_0_r.
    + apply elem_of_cons in Hin as [->|Hin];
        [by rewrite frame_eqb_refl in He|].
      destruct (IH (S i0) Hin) as (i & g & Hf & Hl & Hg).
      exists (S i), g. rewrite Hf. split; [f_equal; lia|done].
Qed.

(** Earlier positions are not touched by preparing later ones. *)
Lemma prepare_untouched (frames : list Frame) :
  forall i0 d (j : nat),
    (j < i0)%nat ->
    frame_features_dict (prepare self i0 frames d) !! j
    = frame_features_dict d !! j /\
    frame_images_dict (prepare self i0 frames d) !! j
    = frame_images_dict d !! j.
Proof.
  induction frames as [|f frames IH]; intros i0 d j Hj; simpl; [done|].
  destruct (IH (S i0) (prepare_frame self i0 f d) j ltac:(lia)) as [-> ->].
  unfold prepare_frame.
  destruct (image f); try done.
  destruct (use_ml self && feature_model self && TENSORFLOW_AVAILABLE);
    simpl; rewrite !lookup_insert_ne by lia; done.
Qed.

(** After the preparation loop, [.get] at a position returns the
    comparison data of the frame at that position. *)
Lemma prepare_get (frames : list Frame) :
  forall i0 d,
    (forall j : nat, (i0 <= j)%nat ->
       frame_features_dict d !! j = None /\ frame_images_dict d !! j = None) ->
    forall (j : nat) (f : Frame),
      frames !! j = Some f ->
      get_features (prepare self i0 frames d) (i0 + j) = features_of self f /\
      get_image (prepare self i0 frames d) (i0 + j) = array_of f.
Proof.
  induction frames as [|f0 frames IH]; intros i0 d Hfree j f Hj;
    [by rewrite lookup_nil in Hj|].
  destruct j as [|j]; simpl in Hj.
  - injection Hj as ->. rewrite Nat.add_0_r. simpl.
    unfold get_features, get_image.
    destruct (prepare_untouched frames (S i0) (prepare_frame self i0 f d) i0
                ltac:(lia)) as [-> ->].
    destruct (Hfree i0 ltac:(lia)) as [Hff Hfi].
    unfold prepare_frame, features_of, array_of.
    destruct (image f); simpl; rewrite ?Hff, ?Hfi; try done.
    destruct (use_ml self && feature_model self && TENSORFLOW_AVAILABLE);
      simpl; rewrite !lookup_insert_eq; done.
  - simpl. replace (i0 + S j)%nat with (S i0 + j)%nat by lia.
    apply IH; [|done].
    intros k Hk. destruct (Hfree k ltac:(lia)) as [Hff Hfi].
    unfold prepare_frame.
    destruct (image f0); try done.
    destruct (use_ml self && feature_model self && TENSORFLOW_AVAILABLE);
      simpl; rewrite !lookup_insert_ne by lia; done.
Qed.

Lemma prepared_get (frames : list Frame) (j : nat) (f : Frame) :
  frames !! j = Some f ->
  get_features (prepare self 0 frames (mkPrepared ∅ ∅)) j = features_of self f /\
  get_image (prepare self 0 frames (mkPrepared ∅ ∅)) j = array_of f.
Proof.
  intros Hj. apply (prepare_get frames 0 (mkPrepared ∅ ∅)); [|done].
  intros k _. simpl. by rewrite !lookup_empty.
Qed.

Lemma features_of_eqb (f g : Frame) :
  frame_eqb f g = true -> features_of self f = features_of self g.
Proof. intros He. unfold features_of. by rewrite (frame_eqb_image _ _ He). Qed.

Lemma array_of_eqb (f g : Frame) :
  frame_eqb f g = true -> array_of f = array_of g.
Proof. intros He. unfold array_of. by rewrite (frame_eqb_image _ _ He). Qed.

(** One kept frame flags the candidate exactly when the cosine test or the
    SSIM test does, and the loop breaks exactly then. *)
Lemma compare_pair_spec (t : Q) (d : Prepared) (idx i : nat) (c u : Frame)
    (acc : Scan) :
  is_duplicate acc = false ->
  get_features d i = features_of self u ->
  get_image d i = array_of u ->
  snd (compare_pair self t d idx i (features_of self c) (array_of c) acc)
  = is_match self t c u /\
  is_duplicate
    (fst (compare_pair self t d idx i (features_of self c) (array_of c) acc))
  = is_match self t c u.
Proof.
  intros Hacc Hf Ha.
  unfold compare_pair, is_match, cosine_match, ssim_match.
  rewrite Hf, Ha.
  destruct (use_ml self), (features_of self c) as [cf|],
    (features_of self u) as [uf|]; simpl;
    try destruct (Qle_bool t (dot cf uf)); simpl; try done;
    rewrite ?Hacc;
    destruct (array_of c) as [ca|], (array_of u) as [ua|]; simpl; try done;
    destruct (try_ssim ua ca) as [s|]; simpl; try done;
    destruct (Qle_bool t s); done.
Qed.

Section Scan.

Variable t : Q.
Variable frames : list Frame.

Let d : Prepared := prepare self 0 frames (mkPrepared ∅ ∅).

(** The inner loop flags the candidate exactly when some kept frame
    matches it. *)
Lemma compare_with_unique_spec (idx : nat) (c : Frame) (unique : list Frame) :
  (forall u, u ∈ unique -> u ∈ frames) ->
  forall acc,
    is_duplicate acc = false ->
    is_duplicate
      (compare_with_unique self t d frames idx (features_of self c)
         (array_of c) unique acc)
    = existsb (is_match self t c) unique.
Proof.
  induction unique as [|u unique IH]; intros Hin acc Hacc; simpl; [done|].
  destruct (find_index_spec frames u 0 (Hin u ltac:(left)))
    as (i & f & -> & Hi & He).
  simpl.
  destruct (prepared_get frames i f Hi) as [Hf Ha].
  rewrite (features_of_eqb _ _ He) in Hf. rewrite (array_of_eqb _ _ He) in Ha.
  destruct (compare_pair_spec t d idx i c u acc Hacc Hf Ha) as [Hb Hd].
  destruct (compare_pair self t d idx i (features_of self c) (array_of c) acc)
    as [acc' broke]; simpl in *.
  rewrite <- Hb in Hd |- *. destruct broke; simpl; [done|].
  apply IH; [|done]. intros w Hw. apply Hin. by right.
Qed.

(** The outer loop appends exactly the survivors of the pending
    candidates. *)
Lemma dedup_loop_unique (cb : bool) (pending : list Frame) :
  forall (idx : nat) (st : Dedup),
    (forall (j : nat) c, pending !! j = Some c ->
       frames !! (idx + j)%nat = Some c) ->
    (forall u, u ∈ unique_frames st -> u ∈ frames) ->
    unique_frames (dedup_loop self t cb d frames idx pending st)
    = unique_frames st ++ survivors self t (unique_frames st) pending.
Proof.
  induction pending as [|c pending IH]; intros idx st Hpos Hin; simpl;
    [by rewrite app_nil_r|].
  assert (frames !! idx = Some c) as Hc.
  { specialize (Hpos 0%nat c eq_refl). by rewrite Nat.add_0_r in Hpos. }
  assert (forall (j : nat) c', pending !! j = Some c' ->
            frames !! (S idx + j)%nat = Some c') as Hpos'.
  { intros j c' Hj. specialize (Hpos (S j) c' Hj).
    by replace (idx + S j)%nat with (S idx + j)%nat in Hpos by lia. }
  unfold has_image. destruct (image c) as [| |r] eqn:Himg; simpl.
  - by rewrite IH.
  - by rewrite IH.
  - destruct (prepared_get frames idx c Hc) as [Hf Ha]. fold d in Hf, Ha.
    rewrite Hf, Ha.
    rewrite (compare_with_unique_spec idx c (unique_frames st) Hin) by done.
    destruct (existsb (is_match self t c) (unique_frames st)); simpl.
    + by rewrite IH.
    + rewrite IH; simpl; [by rewrite <- app_assoc|done|].
      intros u Hu. apply elem_of_app in Hu as [Hu|Hu]; [by apply Hin|].
      apply list_elem_of_singleton in Hu as ->.
      by apply list_elem_of_lookup_2 in Hc.
Qed.

End Scan.

(** The list the pass returns is [kept_frames]: the positions, the two
    dictionaries and the search by equality do not show in the result. *)
Lemma remove_duplicate_frames_unique (frames : list Frame) (t : Q) (cb : bool) :
  unique_frames (remove_duplicate_frames self frames t cb)
  = kept_frames self t frames.
Proof.
  destruct frames as [|f [|g rest]]; try done.
  unfold remove_duplicate_frames, kept_frames. cbn [unique_frames].
  rewrite dedup_loop_unique; [done| |].
  - intros j c Hj. done.
  - simpl. intros u Hu. apply list_elem_of_singleton in Hu as ->. by left.
Qed.

(** *** The kept list as a function of the candidates *)

Lemma survivors_sublist (t : Q) (pending : list Frame) :
  forall kept, survivors self t kept pending `sublist_of` pending.
Proof.
  induction pending as [|c pending IH]; intros kept; simpl; [done|].
  destruct (has_image c && negb (existsb (is_match self t c) kept)).
  - by apply sublist_skip.
  - by apply sublist_cons.
Qed.


(** Running the selection again on what it selected changes nothing. *)
Lemma survivors_idem (t : Q) (pending : list Frame) :
  forall kept,
    survivors self t kept (survivors self t kept pending)
    = survivors self t kept pending.
Proof.
  induction pending as [|c pending IH]; intros kept; simpl; [done|].
  destruct (has_image c && negb (existsb (is_match self t c) kept)) eqn:Hc;
    simpl; [|apply IH].
  rewrite Hc. f_equal. apply IH.
Qed.

(** A pair that matches at a threshold matches at every lower one. *)
Lemma is_match_antitone (t1 t2 : Q) (c u : Frame) :
  (t1 <= t2)%Q -> is_match self t2 c u = true -> is_match self t1 c u = true.
Proof.
  intros Hle.
  assert (forall s, Qle_bool t2 s = true -> Qle_bool t1 s = true) as Hq.
  { intros s Hs. apply Qle_bool_iff. apply Qle_bool_iff in Hs.
    by apply Qle_trans with t2. }
  unfold is_match, cosine_match, ssim_match. rewrite !orb_true_iff.
  intros [Hm|Hm]; [left|right].
  - destruct (use_ml self), (features_of self c), (features_of self u);
      try done. by apply Hq.
  - destruct (array_of c) as [ca|], (array_of u) as [ua|]; try done.
    destruct (try_ssim ua ca); try done. by apply Hq.
Qed.

Lemma existsb_match_antitone (t1 t2 : Q) (c : Frame) (kept : list Frame) :
  (t1 <= t2)%Q ->
  existsb (is_match self t1 c) kept = false ->
  existsb (is_match self t2 c) kept = false.
Proof.
  intros Hle H1. apply not_true_is_false. intros H2.
  apply existsb_exists in H2 as (u & Hu & Hm).
  apply (is_match_antitone t1 t2 c u Hle) in Hm.
  assert (existsb (is_match self t1 c) kept = true)
    by (apply existsb_exists; eauto).
  congruence.
Qed.

(** When nothing is removed at a threshold, nothing is removed at a higher
    one. *)
Lemma survivors_all (t1 t2 : Q) (pending : list Frame) :
  (t1 <= t2)%Q ->
  forall kept,
    survivors self t1 kept pending = pending ->
    survivors self t2 kept pending = pending.
Proof.
  intros Hle. induction pending as [|c pending IH]; intros kept; simpl;
    [done|].
  destruct (has_image c) eqn:Hi; simpl.
  - destruct (existsb (is_match self t1 c) kept) eqn:H1; simpl.
    + intros Heq.
      pose proof (sublist_length _ _ (survivors_sublist t1 pending kept)) as Hl.
      rewrite Heq in Hl. simpl in Hl. lia.
    + rewrite (existsb_match_antitone t1 t2 c kept Hle H1). simpl.
      intros [= Heq]. f_equal. by apply IH.
  - intros Heq.
    pose proof (sublist_length _ _ (survivors_sublist t1 pending kept)) as Hl.
    rewrite Heq in Hl. simpl in Hl. lia.
Qed.

Lemma sublist_increasing (l1 l2 : list Frame) :
  l1 `sublist_of` l2 -> increasing l2 -> increasing l1.
Proof.
  unfold increasing. induction 1 as [|x l1 l2 Hs IH|x l1 l2 Hs IH];
    rewrite ?StronglySorted_cons; [done| |].
  - intros [Hx Hl]. split; [|by apply IH].
    eapply Forall_forall. intros y Hy.
    apply (proj1 (Forall_forall _ _) Hx). by apply (sublist_subseteq _ _ Hs).
  - intros [_ Hl]. by apply IH.
Qed.

Lemma kept_frames_sublist (t : Q) (frames : list Frame) :
  kept_frames self t frames `sublist_of` frames.
Proof.
  destruct frames as [|f pending]; simpl; [done|].
  apply sublist_skip, survivors_sublist.
Qed.



(** *** The comparisons made *)




Section Log.

Variable t : Q.
Variable frames : list Frame.

Let d : Prepared := prepare self 0 frames (mkPrepared ∅ ∅).




End Log.


End DedupFacts.

(** ** The two passes: main results *)

Section Results.

Context `{K : Kernels}.

Lemma init_frame_skip (ct : Q) (mfi : Z) (ml : bool) (fs : Z) :
  1 <= frame_skip (init ct mfi ml fs).
Proof. simpl. lia. Qed.

(** The list a call returns is the list of a state that satisfies the
    loop invariant. *)
Lemma extract_invariant (ct : Q) (mfi : Z) (ml : bool) (fs : Z)
    (cap : option Video) (clock : nat -> Q) (cb : bool)
    (sc : option (nat -> bool)) :
  let self := init ct mfi ml fs in
  exists st,
    invariant self st /\
    returned (extract_frames_with_changes self cap clock cb sc) = frames st.
Proof.
  intros self. destruct cap as [v|]; simpl.
  - destruct (loop_invariant self v (init_frame_skip ct mfi ml fs) clock cb sc
                (stream v) 0 (initial self v cb)
                (invariant_initial self v (init_frame_skip ct mfi ml fs) cb))
      as (st & Hinv & Hres).
    exists st. split; [done|]. unfold returned. by rewrite Hres.
  - exists (initial self (mkVideo 0 0 []) cb). split; [|done].
    apply invariant_initial, init_frame_skip.
Qed.

(** With a spacing of at least one frame the first decoded frame is
    accepted, whatever the threshold and the skip factor. *)
Lemma first_frame_accepted_from_interval_one (ct : Q) (mfi : Z) (ml : bool)
    (fs : Z) (rate : Q) (total : Z) (r : Raster) (rest : list Raster)
    (clock : nat -> Q) (cb : bool) (sc : option (nat -> bool)) :
  1 <= mfi ->
  stop_requested sc 0 = false ->
  exists f,
    head (returned
            (extract_frames_with_changes (init ct mfi ml fs)
               (Some (mkVideo rate total (r :: rest))) clock cb sc))
    = Some f /\ frame_number f = 0 /\ image f = PilImage r.
Proof.
  intros Hmfi Hstop.
  set (self := init ct mfi ml fs). set (v := mkVideo rate total (r :: rest)).
  unfold extract_frames_with_changes. cbn [stream v loop]. rewrite Hstop.
  pose proof (frames_prefix_loop self v clock cb sc rest 1
                (body self v clock cb (initial self v cb) r)) as Hpre.
  assert (frames (body self v clock cb (initial self v cb) r)
          = [frame_data v 0 r]) as Hfirst.
  { unfold body. cbn [initial frame_count processed_frame_count
                        last_change_processed_frame frames].
    rewrite Z.mod_0_l by (unfold self; simpl; lia).
    simpl negb. cbv iota.
    assert ((0 + 1 - - min_frame_interval self - 1
               <? min_processed_interval self) = false) as ->.
    { apply Z.ltb_ge. unfold min_processed_interval. simpl.
      assert (1 <= Z.max 1 fs) as Hfs by lia.
      assert (mfi / Z.max 1 fs <= mfi).
      { generalize dependent (Z.max 1 fs). intros m Hm.
        apply Z.div_le_upper_bound; nia. }
      lia. }
    unfold detect. cbn [prev_frame_features prev_frame_rgb initial].
    destruct (use_ml self && feature_model self);
      destruct ((0 + 1) mod 10 =? 0); simpl;
      destruct (Qle_bool (1 # 2) (clock 1%nat - 0)); reflexivity. }
  rewrite Hfirst in Hpre. destruct Hpre as [tail ->].
  exists (frame_data v 0 r). done.
Qed.

(** C1 (code defect).  With [min_frame_interval = 0] the spacing test
    rejects the first decoded frame: it sees [0] frames since the last
    change and asks for at least [max(1, 0) = 1].  On a source of one
    frame nothing is returned, for every threshold, skip factor and
    strategy. *)
Theorem first_frame_skipped_at_interval_zero (ct : Q) (ml : bool) (fs : Z)
    (rate : Q) (total : Z) (r : Raster) (clock : nat -> Q) (cb : bool) :
  returned
    (extract_frames_with_changes (init ct 0 ml fs)
       (Some (mkVideo rate total [r])) clock cb None)
  = [].
Proof.
  unfold extract_frames_with_changes. cbn [stream loop stop_requested].
  unfold body.
  cbn [initial frame_count processed_frame_count last_change_processed_frame
       frames].
  rewrite Z.mod_0_l by (simpl; lia).
  simpl negb. cbv iota.
  assert ((0 + 1 - - min_frame_interval (init ct 0 ml fs) - 1
             <? min_processed_interval (init ct 0 ml fs)) = true) as ->.
  { apply Z.ltb_lt. unfold min_processed_interval. simpl. lia. }
  reflexivity.
Qed.


(** C8.  If [stop_check] answers true at some poll the loop reaches (the
    polls are numbered from 0, one before each read), the call returns a
    list, which is a prefix of the one an uninterrupted call on the same
    source and configuration returns, whatever the clocks and whether or
    not progress is reported; and when a callback is given, the last
    snapshot it receives has stage [stopped] and no [error] entry. *)
Theorem stop_returns_prefix (ct : Q) (mfi : Z) (ml : bool) (fs : Z)
    (v : Video) (clock clock' : nat -> Q) (cb cb' : bool) (sc : nat -> bool)
    (k : nat) :
  (k <= length (stream v))%nat ->
  sc k = true ->
  let self := init ct mfi ml fs in
  let stopped cb := extract_frames_with_changes self (Some v) clock cb (Some sc) in
  let full := extract_frames_with_changes self (Some v) clock' cb' None in
  (exists l, result (stopped cb) = Returned l /\ l `prefix_of` returned full) /\
  (exists s,
     last (progress (stopped true)) = Some s /\
     s !! "stage" = Some (VStr "stopped") /\ s !! "error" = None).
Proof.
  intros Hk Hsc self stopped full. split.
  - destruct (loop_stops self v clock cb sc (stream v) 0 (initial self v cb) k
                ltac:(lia) Hsc) as [st Hst].
    exists (frames st). unfold stopped, extract_frames_with_changes.
    split; [by rewrite Hst|].
    change (frames st) with
      (returned {| result := Returned (frames st);
                   progress :=
                     if cb then emitted st ++ [stopped_snapshot v clock st]
                     else emitted st;
                   self_after := self |}).
    rewrite <- Hst. apply loop_stop_prefix. reflexivity.
  - destruct (loop_stops self v clock true sc (stream v) 0
                (initial self v true) k ltac:(lia) Hsc) as [st Hst].
    unfold stopped, extract_frames_with_changes. rewrite Hst. simpl.
    exists (stopped_snapshot v clock st). rewrite last_snoc.
    split; [done|]. unfold stopped_snapshot. split; by simplify_map_eq.
Qed.



(** C5.  The returned list is a subsequence of the input, in the input's
    order, and starts with the input's first element. *)
Theorem dedup_subsequence (self : VideoProcessor) (frames : list Frame)
    (t : Q) (cb : bool) :
  unique_frames (remove_duplicate_frames self frames t cb) `sublist_of` frames /\
  head (unique_frames (remove_duplicate_frames self frames t cb))
  = head frames.
Proof.
  rewrite remove_duplicate_frames_unique.
  split; [apply kept_frames_sublist|]. by destruct frames.
Qed.

(** C6.  Running the pass on its own result returns that result. *)
Theorem dedup_idempotent (self : VideoProcessor) (frames : list Frame)
    (t : Q) (cb cb' : bool) :
  unique_frames
    (remove_duplicate_frames self
       (unique_frames (remove_duplicate_frames self frames t cb)) t cb')
  = unique_frames (remove_duplicate_frames self frames t cb).
Proof.
  rewrite !remove_duplicate_frames_unique.
  destruct frames as [|f pending]; simpl; [done|].
  by rewrite survivors_idem.
Qed.

(** C7, amended.  For [t1 <= t2]: a pair that matches at [t2] matches
    at [t1], so against the same kept frames a candidate discarded at [t2]
    is discarded at [t1]; and when the pass at [t1] removes nothing, the
    pass at [t2] removes nothing. *)
Theorem threshold_raise (self : VideoProcessor) (frames : list Frame)
    (t1 t2 : Q) (cb : bool) :
  (t1 <= t2)%Q ->
  (forall c kept,
     existsb (is_match self t2 c) kept = true ->
     existsb (is_match self t1 c) kept = true) /\
  (unique_frames (remove_duplicate_frames self frames t1 cb) = frames ->
   unique_frames (remove_duplicate_frames self frames t2 cb) = frames).
Proof.
  intros Hle. split.
  - intros c kept H2. apply not_false_iff_true. intros H1.
    by rewrite (existsb_match_antitone self t1 t2 c kept Hle H1) in H2.
  - rewrite !remove_duplicate_frames_unique.
    destruct frames as [|f pending]; simpl; [done|].
    intros [= Heq]. f_equal. by apply (survivors_all self t1 t2).
Qed.

(** C9.  The frame numbers of the list [extract_frames_with_changes]
    returns are strictly increasing, and [remove_duplicate_frames] returns
    a list with strictly increasing frame numbers whenever it is given
    one. *)
Theorem frame_numbers_increasing (ct : Q) (mfi : Z) (ml : bool) (fs : Z)
    (cap : option Video) (clock : nat -> Q) (cb : bool)
    (sc : option (nat -> bool)) :
  increasing
    (returned (extract_frames_with_changes (init ct mfi ml fs) cap clock cb sc))
  /\
  (forall (self : VideoProcessor) (frames : list Frame) (t : Q) (cb' : bool),
     increasing frames ->
     increasing (unique_frames (remove_duplicate_frames self frames t cb'))).
Proof.
  split.
  - destruct (extract_invariant ct mfi ml fs cap clock cb sc)
      as (st & (_ & _ & _ & _ & _ & Hinc & _) & Hout).
    by rewrite Hout.
  - intros self frames t cb' Hinc.
    apply (sublist_increasing _ frames); [|done].
    rewrite remove_duplicate_frames_unique. apply kept_frames_sublist.
Qed.

(** C10.  On a list of length zero or one the pass returns the list as it
    is, sends no snapshot and makes no comparison. *)
Theorem short_input_untouched (self : VideoProcessor) (frames : list Frame)
    (t : Q) (cb : bool) :
  (length frames <= 1)%nat ->
  let out := remove_duplicate_frames self frames t cb in
  unique_frames out = frames /\ reported out = [] /\ compared out = [].
Proof.
  intros Hlen. destruct frames as [|f [|g rest]]; simpl in *; try done. lia.
Qed.

End Results.

(** ** Further properties of extract_frames_with_changes *)

Section Runs.

Context `{K : Kernels}.
Variable self : VideoProcessor.
Variable v : Video.
Variable clock : nat -> Q.
Variable cb : bool.
Variable sc : option (nat -> bool).

(** How a run ends.  [I] is kept by every pass through the loop body on a
    picture satisfying [P]; [done] is what has been read.  The run ends at
    the first poll that answers true, or when the pictures are exhausted,
    in a state satisfying [I]. *)
Lemma loop_outcome (P : Raster -> Prop) (I : list Raster -> Locals -> Prop) :
  (forall done st frame,
     I done st -> P frame ->
     I (done ++ [frame]) (body self v clock cb st frame)) ->
  forall rest done st,
    Forall P rest ->
    I done st ->
    exists done' rest' st',
      done ++ rest = done' ++ rest' /\
      I done' st' /\
      (forall k : nat,
         (length done <= k < length done')%nat -> stop_requested sc k = false) /\
      ((stop_requested sc (length done') = true /\
        loop self v clock cb sc (length done) st rest
        = stopped_outcome self v clock cb st') \/
       (stop_requested sc (length done') = false /\ rest' = [] /\
        loop self v clock cb sc (length done) st rest
        = completed_outcome self v clock cb st')).
Proof.
  intros Hstep. induction rest as [|frame rest IH]; intros done st HP HI.
  - exists done, [], st. split; [done|]. split; [done|].
    split; [intros k Hk; lia|].
    simpl. destruct (stop_requested sc (length done)); [left|right]; done.
  - destruct (stop_requested sc (length done)) eqn:Hstop.
    + exists done, (frame :: rest), st. split; [done|]. split; [done|].
      split; [intros k Hk; lia|].
      left. split; [done|]. cbn [loop]. by rewrite Hstop.
    + apply Forall_cons in HP as [Hframe HP].
      destruct (IH (done ++ [frame]) (body self v clock cb st frame) HP
                  (Hstep _ _ _ HI Hframe))
        as (done' & rest' & st' & Hsplit & HI' & Hquiet & Hend).
      rewrite length_app in Hquiet, Hend. simpl in Hquiet, Hend.
      replace (length done + 1)%nat with (S (length done)) in Hquiet, Hend
        by lia.
      exists done', rest', st'.
      split; [by rewrite <- Hsplit, <- app_assoc|]. split; [done|].
      split.
      { intros k Hk. destruct (decide (k = length done)) as [->|Hne]; [done|].
        apply Hquiet. lia. }
      cbn [loop]. rewrite Hstop. exact Hend.
Qed.

(** The picture just read is recorded under the number of pictures read
    before it. *)
Lemma carries_body (done : list Raster) (st : Locals) (frame : Raster) :
  frame_count st = Z.of_nat (length done) ->
  Forall (carries done) (frames st) ->
  frame_count (body self v clock cb st frame)
  = Z.of_nat (length (done ++ [frame])) /\
  Forall (carries (done ++ [frame])) (frames (body self v clock cb st frame)).
Proof.
  intros Hcount Hall.
  assert (Forall (carries (done ++ [frame])) (frames st)) as Hall'.
  { eapply Forall_impl; [exact Hall|].
    intros f (Hpos & r & Hr & Hrest). split; [done|]. exists r.
    split; [|done]. by apply lookup_app_l_Some. }
  destruct (body_cases self v clock cb st frame)
    as [Hc [(-> & _)|(-> & _)]]; rewrite Hc, length_app; simpl;
    (split; [lia|]); [done|].
  apply Forall_app. split; [done|]. repeat constructor; simpl; [lia|].
  exists frame. rewrite Hcount, Nat2Z.id.
  split; [|done]. by rewrite lookup_app_r, Nat.sub_diag by lia.
Qed.

End Runs.

Section Candidates.

Context `{K : Kernels}.

Lemma get_frame_by_index_spec (self : VideoProcessor) (i : Z) (f : Frame) :
  get_frame_by_index self i = Returned f
  <-> 0 <= i /\ self_frames self !! Z.to_nat i = Some f.
Proof.
  unfold get_frame_by_index.
  destruct (Z.leb_spec 0 i) as [Hlo|Hlo]; simpl.
  - destruct (Z.ltb_spec i (Z.of_nat (length (self_frames self)))) as [Hhi|Hhi].
    + destruct (self_frames self !! Z.to_nat i) as [g|] eqn:Hg.
      * split; [intros [= ->]; done|intros [_ [= ->]]; done].
      * split; [done|intros [_ ?]; done].
    + split; [done|]. intros [_ Hf]. apply lookup_lt_Some in Hf. lia.
  - split; [done|]. intros [? _]. lia.
Qed.

(** What a run on an opened video ends with: the state has read [done],
    a prefix of the stream, and records pictures of [done]. *)
Lemma extract_outcome (self : VideoProcessor) (v : Video) (clock : nat -> Q)
    (cb : bool) (sc : option (nat -> bool)) :
  exists done rest st,
    stream v = done ++ rest /\
    frame_count st = Z.of_nat (length done) /\
    Forall (carries done) (frames st) /\
    (forall k : nat, (k < length done)%nat -> stop_requested sc k = false) /\
    ((stop_requested sc (length done) = true /\
      extract_frames_with_changes self (Some v) clock cb sc
      = stopped_outcome self v clock cb st) \/
     (stop_requested sc (length done) = false /\ rest = [] /\
      extract_frames_with_changes self (Some v) clock cb sc
      = completed_outcome self v clock cb st)).
Proof.
  destruct (loop_outcome self v clock cb sc (fun _ => True)
              (fun done st =>
                 frame_count st = Z.of_nat (length done) /\
                 Forall (carries done) (frames st))
              ltac:(intros done st frame [Hc Hf] _; by apply carries_body)
              (stream v) [] (initial self v cb)
              ltac:(by apply Forall_true)
              ltac:(split; [done|constructor]))
    as (done & rest & st & Hsplit & [Hc Hf] & Hquiet & Hend).
  exists done, rest, st. simpl in Hsplit.
  repeat split; try done.
  intros k Hk. apply Hquiet. simpl. lia.
Qed.

(** X1.  A call that runs to the end of the stream stores the list it
    returns in [self.frames], so that [get_frame_by_index] serves exactly
    its elements at the indices from 0 and raises [IndexError] at every
    other index, the negative ones included; a call that is stopped leaves
    the processor as it was, with the frames of an earlier call. *)
Theorem frames_stored_on_completion (self : VideoProcessor) (v : Video)
    (clock : nat -> Q) (cb : bool) (sc : option (nat -> bool)) :
  1 <= frame_skip self ->
  let out := extract_frames_with_changes self (Some v) clock cb sc in
  ((forall k : nat, (k <= length (stream v))%nat -> stop_requested sc k = false) ->
   self_frames (self_after out) = returned out /\
   forall i f,
     get_frame_by_index (self_after out) i = Returned f
     <-> 0 <= i /\ returned out !! Z.to_nat i = Some f) /\
  (forall k : nat,
     (k <= length (stream v))%nat -> stop_requested sc k = true ->
     self_after out = self).
Proof.
  intros _ out.
  destruct (extract_outcome self v clock cb sc)
    as (done & rest & st & Hsplit & _ & _ & Hquiet & Hend).
  assert (length done <= length (stream v))%nat as Hlen
    by (rewrite Hsplit, length_app; lia).
  unfold out. split.
  - intros Hnever. destruct Hend as [[Hstop _]|(_ & _ & ->)].
    + rewrite Hnever in Hstop by done. done.
    + split; [done|]. intros i f. by rewrite get_frame_by_index_spec.
  - intros k Hk Hstop. destruct Hend as [[_ ->]|(Hlast & -> & _)]; [done|].
    rewrite app_nil_r in Hsplit. subst done.
    destruct (decide (k = length (stream v))) as [->|Hne]; [congruence|].
    rewrite Hquiet in Hstop by lia. done.
Qed.

(** X2.  Every frame record a call returns holds the picture that was
    decoded at its [frame_number], which lies within the stream, and the
    width and height of that picture. *)
Theorem candidates_carry_pictures (ct : Q) (mfi : Z) (ml : bool) (fs : Z)
    (v : Video) (clock : nat -> Q) (cb : bool) (sc : option (nat -> bool)) :
  Forall (carries (stream v))
    (returned
       (extract_frames_with_changes (init ct mfi ml fs) (Some v) clock cb sc)).
Proof.
  destruct (extract_outcome (init ct mfi ml fs) v clock cb sc)
    as (done & rest & st & Hsplit & _ & Hf & _ & Hend).
  assert (returned
            (extract_frames_with_changes (init ct mfi ml fs) (Some v) clock cb sc)
          = frames st) as ->
    by (destruct Hend as [[_ ->]|(_ & _ & ->)]; done).
  eapply Forall_impl; [exact Hf|].
  intros f (Hpos & r & Hr & Hrest). split; [done|]. exists r.
  split; [|done]. rewrite Hsplit. by apply lookup_app_l_Some.
Qed.

(** X3.  When [stop_check] answers true at poll [k] (the poll made before
    the read of the picture at position [k]), the list returned holds only
    frames at positions before [k]: nothing is read after the stop. *)
Theorem stop_keeps_earlier_frames (ct : Q) (mfi : Z) (ml : bool) (fs : Z)
    (v : Video) (clock : nat -> Q) (cb : bool) (sc : nat -> bool) (k : nat) :
  (k <= length (stream v))%nat ->
  sc k = true ->
  Forall (fun f => 0 <= frame_number f < Z.of_nat k)
    (returned
       (extract_frames_with_changes (init ct mfi ml fs) (Some v) clock cb
          (Some sc))).
Proof.
  intros Hk Hsc.
  destruct (extract_outcome (init ct mfi ml fs) v clock cb (Some sc))
    as (done & rest & st & Hsplit & _ & Hf & Hquiet & Hend).
  assert (length done <= k)%nat as Hdone.
  { destruct (decide (length done <= k)%nat) as [|Hgt]; [done|].
    specialize (Hquiet k ltac:(lia)). simpl in Hquiet. congruence. }
  assert (returned
            (extract_frames_with_changes (init ct mfi ml fs) (Some v) clock cb
               (Some sc)) = frames st) as ->
    by (destruct Hend as [[_ ->]|(_ & _ & ->)]; done).
  eapply Forall_impl; [exact Hf|].
  intros f (Hpos & r & Hr & _). apply lookup_lt_Some in Hr. lia.
Qed.

End Candidates.

Section Progress.

Context `{K : Kernels}.
Variable self : VideoProcessor.
Variable v : Video.
Variable clock : nat -> Q.

Lemma sorted_snoc {A : Type} (R : relation A) (l : list A) (x : A) :
  StronglySorted R l -> Forall (fun a => R a x) l ->
  StronglySorted R (l ++ [x]).
Proof.
  intros Hl Hx. apply StronglySorted_app_2; [|done|repeat constructor].
  intros a b Ha Hb. apply list_elem_of_singleton in Hb as ->.
  by apply (proj1 (Forall_forall _ _) Hx).
Qed.

Lemma extracting_fields (fc p : Z) (d : nat) (e : Q) :
  extracting_snapshot self v fc p d e !! "stage" = Some (VStr "extracting") /\
  int_field "frames_detected" (extracting_snapshot self v fc p d e)
  = Z.of_nat d /\
  int_field "current_frame" (extracting_snapshot self v fc p d e) = fc.
Proof.
  unfold int_field, extracting_snapshot. cbv zeta.
  repeat split; by simplify_map_eq.
Qed.

(** A pass through the body sends nothing or one [extracting] snapshot,
    made after the frame was handled. *)
Lemma body_emitted (cb : bool) (st : Locals) (frame : Raster) :
  emitted (body self v clock cb st frame) = emitted st \/
  exists e,
    emitted (body self v clock cb st frame)
    = emit cb
        (extracting_snapshot self v (frame_count st + 1)
           (processed_frame_count st + 1)
           (length (frames (body self v clock cb st frame))) e)
        (emitted st).
Proof.
  unfold body.
  destruct (negb (frame_count st mod frame_skip self =? 0)); [by left|].
  destruct (processed_frame_count st + 1 - last_change_processed_frame st - 1
            <? min_processed_interval self); [by left|].
  destruct (detect self st frame) as [[change rgb] feats].
  destruct (((processed_frame_count st + 1) mod 10 =? 0)
            || Qle_bool (1 # 2) (clock (ticks st) - last_progress_update st));
    [right|by left].
  eexists. simpl. reflexivity.
Qed.

(** Without a callback nothing is recorded. *)
Lemma silent_body (st : Locals) (frame : Raster) :
  emitted st = [] -> emitted (body self v clock false st frame) = [].
Proof.
  intros He. destruct (body_emitted false st frame) as [->|[e ->]]; done.
Qed.

(** What has been sent to a callback when the loop head is reached: the
    [initializing] snapshot, then [extracting] snapshots whose counters
    are bounded by the loop's and rise along the list. *)
Lemma trace_body (st : Locals) (frame : Raster) (mid : list Snapshot) :
  0 <= frame_count st ->
  emitted st = initializing_snapshot v :: mid ->
  Forall (fun s =>
            s !! "stage" = Some (VStr "extracting") /\
            0 <= int_field "frames_detected" s <= Z.of_nat (length (frames st)) /\
            0 < int_field "current_frame" s <= frame_count st) mid ->
  StronglySorted
    (fun a b => int_field "frames_detected" a <= int_field "frames_detected" b)
    mid ->
  StronglySorted
    (fun a b => int_field "current_frame" a < int_field "current_frame" b)
    mid ->
  let st' := body self v clock true st frame in
  exists mid',
    0 <= frame_count st' /\
    emitted st' = initializing_snapshot v :: mid' /\
    Forall (fun s =>
              s !! "stage" = Some (VStr "extracting") /\
              0 <= int_field "frames_detected" s <= Z.of_nat (length (frames st')) /\
              0 < int_field "current_frame" s <= frame_count st') mid' /\
    StronglySorted
      (fun a b => int_field "frames_detected" a <= int_field "frames_detected" b)
      mid' /\
    StronglySorted
      (fun a b => int_field "current_frame" a < int_field "current_frame" b)
      mid'.
Proof.
  intros Hpos Hem Hall Hfd Hcf.
  pose proof (body_emitted true st frame) as Hbody.
  pose proof (body_cases self v clock true st frame) as Hcases.
  cbv zeta in *.
  set (st' := body self v clock true st frame) in *.
  assert (frame_count st' = frame_count st + 1
          /\ (length (frames st) <= length (frames st'))%nat) as [Hc Hlen].
  { destruct Hcases as [Hc [(Hf & _)|(Hf & _)]]; rewrite Hc, Hf;
      [|rewrite length_app]; simpl; split; lia. }
  assert (Forall (fun s =>
            s !! "stage" = Some (VStr "extracting") /\
            0 <= int_field "frames_detected" s <= Z.of_nat (length (frames st')) /\
            0 < int_field "current_frame" s <= frame_count st') mid) as Hall'.
  { eapply Forall_impl; [exact Hall|]. simpl. intros s (? & ? & ?).
    repeat split; try done; lia. }
  destruct Hbody as [Hsame|[e Hnew]].
  - exists mid. rewrite Hsame. repeat split; try done; lia.
  - exists (mid ++ [extracting_snapshot self v (frame_count st + 1)
                      (processed_frame_count st + 1) (length (frames st')) e]).
    destruct (extracting_fields (frame_count st + 1)
                (processed_frame_count st + 1) (length (frames st')) e)
      as (Hstage & Hd & Hf).
    rewrite Hnew. unfold emit. rewrite Hem. simpl.
    split; [lia|]. split; [done|]. split; [|split].
    + apply Forall_app. split; [done|]. repeat constructor; try done; lia.
    + apply sorted_snoc; [done|].
      eapply Forall_impl; [exact Hall|]. simpl. intros s (_ & ? & _). lia.
    + apply sorted_snoc; [done|].
      eapply Forall_impl; [exact Hall|]. simpl. intros s (_ & _ & ?). lia.
Qed.

(** The trace of a run with a callback, at its end. *)
Lemma extract_trace (sc : option (nat -> bool)) :
  exists done rest st mid,
    stream v = done ++ rest /\
    emitted st = initializing_snapshot v :: mid /\
    Forall (fun s =>
              s !! "stage" = Some (VStr "extracting") /\
              0 <= int_field "frames_detected" s <= Z.of_nat (length (frames st)) /\
              0 < int_field "current_frame" s <= frame_count st) mid /\
    StronglySorted
      (fun a b => int_field "frames_detected" a <= int_field "frames_detected" b)
      mid /\
    StronglySorted
      (fun a b => int_field "current_frame" a < int_field "current_frame" b)
      mid /\
    (forall k : nat, (k < length done)%nat -> stop_requested sc k = false) /\
    ((stop_requested sc (length done) = true /\
      extract_frames_with_changes self (Some v) clock true sc
      = stopped_outcome self v clock true st) \/
     (stop_requested sc (length done) = false /\ rest = [] /\
      extract_frames_with_changes self (Some v) clock true sc
      = completed_outcome self v clock true st)).
Proof.
  destruct (loop_outcome self v clock true sc (fun _ => True)
              (fun _ st =>
                 exists mid,
                   0 <= frame_count st /\
                   emitted st = initializing_snapshot v :: mid /\
                   Forall (fun s =>
                     s !! "stage" = Some (VStr "extracting") /\
                     0 <= int_field "frames_detected" s
                       <= Z.of_nat (length (frames st)) /\
                     0 < int_field "current_frame" s <= frame_count st) mid /\
                   StronglySorted
                     (fun a b => int_field "frames_detected" a
                                 <= int_field "frames_detected" b) mid /\
                   StronglySorted
                     (fun a b => int_field "current_frame" a
                                 < int_field "current_frame" b) mid)
              ltac:(intros done st frame (mid & H0 & H1 & H2 & H3 & H4) _;
                    by apply (trace_body st frame mid))
              (stream v) [] (initial self v true)
              ltac:(by apply Forall_true)
              ltac:(exists []; repeat split; try done; constructor))
    as (done & rest & st & Hsplit & (mid & H0 & H1 & H2 & H3 & H4) & Hquiet
        & Hend).
  exists done, rest, st, mid. simpl in Hsplit. repeat split; try done.
  intros k Hk. apply Hquiet. simpl. lia.
Qed.

Lemma extract_silent (sc : option (nat -> bool)) :
  progress (extract_frames_with_changes self (Some v) clock false sc) = [].
Proof.
  destruct (loop_outcome self v clock false sc (fun _ => True)
              (fun _ st => emitted st = [])
              ltac:(intros done st frame He _; by apply silent_body)
              (stream v) [] (initial self v false)
              ltac:(by apply Forall_true) eq_refl)
    as (done & rest & st & _ & He & _ & Hend).
  unfold extract_frames_with_changes. simpl in Hend.
  destruct Hend as [[_ ->]|(_ & _ & ->)]; simpl; by rewrite ?He.
Qed.

End Progress.

Section Reporting.

Context `{K : Kernels}.

(** X4.  A call that is given a callback and runs to the end of the stream
    sends the [initializing] snapshot first, then only [extracting]
    snapshots, and last the [completed] snapshot, which reports 100 percent
    and the number of frames returned.  A call without a callback sends
    nothing. *)
Theorem progress_stages (ct : Q) (mfi : Z) (ml : bool) (fs : Z) (v : Video)
    (clock : nat -> Q) (sc : option (nat -> bool)) :
  (forall k : nat, (k <= length (stream v))%nat -> stop_requested sc k = false) ->
  let self := init ct mfi ml fs in
  let out := extract_frames_with_changes self (Some v) clock true sc in
  progress (extract_frames_with_changes self (Some v) clock false sc) = [] /\
  exists first mid last,
    progress out = first :: mid ++ [last] /\
    first !! "stage" = Some (VStr "initializing") /\
    Forall (fun s => s !! "stage" = Some (VStr "extracting")) mid /\
    last !! "stage" = Some (VStr "completed") /\
    last !! "percentage" = Some (VNum 100) /\
    last !! "frames_detected"
    = Some (VInt (Z.of_nat (length (returned out)))).
Proof.
  intros Hnever self out. split; [apply extract_silent|].
  destruct (extract_trace self v clock sc)
    as (done & rest & st & mid & Hsplit & Hem & Hall & _ & _ & _ & Hend).
  assert (length done <= length (stream v))%nat as Hlen
    by (rewrite Hsplit, length_app; lia).
  destruct Hend as [[Hstop _]|(_ & _ & Hout)];
    [by rewrite Hnever in Hstop|].
  exists (initializing_snapshot v), mid,
    (completed_snapshot v (length (frames st))
       (clock (ticks st) - start_time clock)).
  unfold out. rewrite Hout. simpl. unfold emit. rewrite Hem.
  split; [done|]. split; [unfold initializing_snapshot; by simplify_map_eq|].
  split; [eapply Forall_impl; [exact Hall|]; by intros s [? _]|].
  unfold completed_snapshot. repeat split; by simplify_map_eq.
Qed.

(** X5.  Along the snapshots a call sends, [frames_detected] never goes
    down and ends at the number of frames returned, whether the call ran
    to the end or was stopped; and [current_frame] strictly rises from one
    snapshot to the next up to the last but one. *)
Theorem progress_counters (ct : Q) (mfi : Z) (ml : bool) (fs : Z) (v : Video)
    (clock : nat -> Q) (sc : option (nat -> bool)) :
  let out :=
    extract_frames_with_changes (init ct mfi ml fs) (Some v) clock true sc in
  exists before last,
    progress out = before ++ [last] /\
    StronglySorted
      (fun a b => int_field "frames_detected" a <= int_field "frames_detected" b)
      (before ++ [last]) /\
    int_field "frames_detected" last = Z.of_nat (length (returned out)) /\
    StronglySorted
      (fun a b => int_field "current_frame" a < int_field "current_frame" b)
      before.
Proof.
  intros out.
  destruct (extract_trace (init ct mfi ml fs) v clock sc)
    as (done & rest & st & mid & _ & Hem & Hall & Hfd & Hcf & _ & Hend).
  assert (exists last,
            progress out = (initializing_snapshot v :: mid) ++ [last] /\
            returned out = frames st /\
            int_field "frames_detected" last = Z.of_nat (length (frames st)))
    as (last & Hprog & Hret & Hlast).
  { unfold out.
    destruct Hend as [[_ ->]|(_ & _ & ->)]; simpl; unfold emit; rewrite Hem;
      eexists; (split; [reflexivity|]); (split; [done|]);
      unfold int_field, stopped_snapshot, completed_snapshot;
      by simplify_map_eq. }
  assert (int_field "frames_detected" (initializing_snapshot v) = 0
          /\ int_field "current_frame" (initializing_snapshot v) = 0)
    as [Hi0 Hi1]
    by (unfold int_field, initializing_snapshot; split; by simplify_map_eq).
  exists (initializing_snapshot v :: mid), last.
  rewrite Hret. split; [done|]. split; [|split; [done|]].
  - apply sorted_snoc.
    + constructor; [done|].
      eapply Forall_impl; [exact Hall|]. simpl. intros s (_ & ? & _). lia.
    + constructor; [lia|].
      eapply Forall_impl; [exact Hall|]. simpl. intros s (_ & ? & _). lia.
  - constructor; [done|].
    eapply Forall_impl; [exact Hall|]. simpl. intros s (_ & _ & ?). lia.
Qed.

End Reporting.

Section Counting.

Context `{K : Kernels}.

(** The positions of the returned frames lie within the stream. *)
Lemma extract_positions (self : VideoProcessor) (v : Video) (clock : nat -> Q)
    (cb : bool) (sc : option (nat -> bool)) :
  Forall (fun f => 0 <= frame_number f < Z.of_nat (length (stream v)))
    (returned (extract_frames_with_changes self (Some v) clock cb sc)).
Proof.
  destruct (extract_outcome self v clock cb sc)
    as (done & rest & st & Hsplit & _ & Hf & _ & Hend).
  assert (returned (extract_frames_with_changes self (Some v) clock cb sc)
          = frames st) as ->
    by (destruct Hend as [[_ ->]|(_ & _ & ->)]; done).
  eapply Forall_impl; [exact Hf|].
  intros f (Hpos & r & Hr & _). apply lookup_lt_Some in Hr.
  rewrite Hsplit, length_app. lia.
Qed.

(** Along a spaced list the processed position advances by at least
    [min_processed_interval + 1] per element. *)
Lemma spaced_span (self : VideoProcessor) (l : list Frame) :
  spaced self l ->
  forall a z,
    head l = Some a -> last l = Some z ->
    (Z.of_nat (length l) - 1) * (min_processed_interval self + 1)
    <= frame_number z / frame_skip self - frame_number a / frame_skip self.
Proof.
  induction l as [|x l IH]; intros Hsp a z Ha Hz; [done|].
  simpl in Ha. injection Ha as ->.
  destruct l as [|b l].
  - simpl in Hz. injection Hz as ->. simpl. lia.
  - assert (spaced self (b :: l)) as Hsp'
      by (intros i p q Hp Hq; by apply (Hsp (S i))).
    specialize (IH Hsp' b z eq_refl Hz).
    pose proof (Hsp 0%nat a b eq_refl eq_refl) as Hgap.
    unfold processed_between in Hgap.
    change (length (a :: b :: l)) with (S (length (b :: l))).
    rewrite Nat2Z.inj_succ. nia.
Qed.


(** X7.  When [min_frame_interval] is at least the number of pictures in
    the stream, a call returns at most one frame. *)
Theorem long_interval_one_candidate (ct : Q) (mfi : Z) (ml : bool) (fs : Z)
    (v : Video) (clock : nat -> Q) (cb : bool) (sc : option (nat -> bool)) :
  Z.of_nat (length (stream v)) <= mfi ->
  (length
     (returned
        (extract_frames_with_changes (init ct mfi ml fs) (Some v) clock cb sc))
   <= 1)%nat.
Proof.
  intros Hlong.
  set (self := init ct mfi ml fs).
  set (out := returned (extract_frames_with_changes self (Some v) clock cb sc)).
  pose proof (init_frame_skip ct mfi ml fs) as Hfs. fold self in Hfs.
  destruct (extract_invariant ct mfi ml fs (Some v) clock cb sc)
    as (st & (_ & _ & _ & _ & _ & _ & Hsp & _) & Hout).
  fold self in Hsp, Hout. fold out in Hout. rewrite <- Hout in Hsp.
  pose proof (extract_positions self v clock cb sc) as Hpos. fold out in Hpos.
  destruct (decide (length out <= 1)%nat) as [|Hmany]; [done|]. exfalso.
  destruct out as [|a l] eqn:Hl; [simpl in Hmany; lia|].
  destruct (last (a :: l)) as [z|] eqn:Hz; [|by rewrite last_None in Hz].
  pose proof (spaced_span self (a :: l) Hsp a z eq_refl Hz) as Hspan.
  assert (0 <= frame_number a) as Ha
    by (apply Forall_cons in Hpos as [[? ?] _]; done).
  assert (frame_number z <= mfi) as Hzn.
  { apply last_Some in Hz as [l' Hz].
    rewrite Hz in Hpos. apply Forall_app in Hpos as [_ Hpos].
    apply Forall_cons in Hpos as [[? ?] _]. lia. }
  assert (0 <= frame_number a / frame_skip self) by (apply Z.div_pos; lia).
  assert (frame_number z / frame_skip self <= mfi / frame_skip self)
    by (apply Z.div_le_mono; lia).
  assert (mfi / frame_skip self <= min_processed_interval self)
    by (unfold min_processed_interval; simpl; lia).
  assert (0 <= min_processed_interval self)
    by (unfold min_processed_interval; lia).
  assert (2 <= Z.of_nat (length (a :: l))) by lia.
  nia.
Qed.

End Counting.

Section Quiet.

Context `{K : Kernels}.
Variable self : VideoProcessor.
Variable v : Video.
Variable clock : nat -> Q.
Variable cb : bool.

Hypothesis quiet :
  forall a b,
    a ∈ stream v -> b ∈ stream v ->
    Qgt_bool (difference self a b) (change_threshold self) = false.

(** On a stream without a score above the threshold, the only frame ever
    accepted is the one scored first: either nothing was scored and
    nothing accepted, or the comparison point is a picture of the stream
    and at most one frame was accepted. *)
Lemma quiet_body (st : Locals) (frame : Raster) :
  frame ∈ stream v ->
  (frames st = [] /\
   (if use_ml self && feature_model self
    then prev_frame_features st = None else prev_frame_rgb st = None)) \/
  ((length (frames st) <= 1)%nat /\
   exists p,
     p ∈ stream v /\
     (if use_ml self && feature_model self
      then prev_frame_features st = Some (extract_features p)
      else prev_frame_rgb st = Some p)) ->
  let st' := body self v clock cb st frame in
  (frames st' = [] /\
   (if use_ml self && feature_model self
    then prev_frame_features st' = None else prev_frame_rgb st' = None)) \/
  ((length (frames st') <= 1)%nat /\
   exists p,
     p ∈ stream v /\
     (if use_ml self && feature_model self
      then prev_frame_features st' = Some (extract_features p)
      else prev_frame_rgb st' = Some p)).
Proof.
  intros Hframe Hst. cbv zeta. unfold body.
  destruct (negb (frame_count st mod frame_skip self =? 0)); [exact Hst|].
  destruct (processed_frame_count st + 1 - last_change_processed_frame st - 1
            <? min_processed_interval self); [exact Hst|].
  pose proof (quiet) as Hq. unfold difference in Hq.
  unfold detect.
  destruct (use_ml self && feature_model self) eqn:Hmode.
  - destruct Hst as [[Hnil Hprev]|[Hlen (p & Hp & Hprev)]]; rewrite Hprev.
    + right.
      destruct (((processed_frame_count st + 1) mod 10 =? 0)
                || Qle_bool (1 # 2)
                     (clock (ticks st) - last_progress_update st));
        simpl; rewrite Hnil; (split; [simpl; lia|]); by exists frame.
    + right. rewrite (Hq p frame Hp Hframe).
      destruct (((processed_frame_count st + 1) mod 10 =? 0)
                || Qle_bool (1 # 2)
                     (clock (ticks st) - last_progress_update st));
        simpl; (split; [done|]); by exists frame.
  - destruct Hst as [[Hnil Hprev]|[Hlen (p & Hp & Hprev)]]; rewrite Hprev.
    + right.
      destruct (((processed_frame_count st + 1) mod 10 =? 0)
                || Qle_bool (1 # 2)
                     (clock (ticks st) - last_progress_update st));
        simpl; rewrite Hnil; (split; [simpl; lia|]); by exists frame.
    + right. rewrite (Hq p frame Hp Hframe).
      destruct (((processed_frame_count st + 1) mod 10 =? 0)
                || Qle_bool (1 # 2)
                     (clock (ticks st) - last_progress_update st));
        simpl; (split; [done|]); by exists frame.
Qed.

Lemma quiet_run (sc : option (nat -> bool)) :
  (length
     (returned (extract_frames_with_changes self (Some v) clock cb sc))
   <= 1)%nat.
Proof.
  destruct (loop_outcome self v clock cb sc (fun p => p ∈ stream v)
              (fun _ st =>
                 (frames st = [] /\
                  (if use_ml self && feature_model self
                   then prev_frame_features st = None
                   else prev_frame_rgb st = None)) \/
                 ((length (frames st) <= 1)%nat /\
                  exists p,
                    p ∈ stream v /\
                    (if use_ml self && feature_model self
                     then prev_frame_features st = Some (extract_features p)
                     else prev_frame_rgb st = Some p)))
              ltac:(intros done st frame Hst Hframe; by apply quiet_body)
              (stream v) [] (initial self v cb)
              ltac:(by apply Forall_forall)
              ltac:(left; split; [done|];
                    by destruct (use_ml self && feature_model self)))
    as (done & rest & st & _ & Hst & _ & Hend).
  assert (returned (extract_frames_with_changes self (Some v) clock cb sc)
          = frames st) as ->
    by (destruct Hend as [[_ Hend]|(_ & _ & Hend)]; simpl in Hend;
        unfold extract_frames_with_changes; by rewrite Hend).
  destruct Hst as [[-> _]|[Hlen _]]; [simpl; lia|done].
Qed.

End Quiet.

Section Independence.

Context `{K : Kernels}.

(** The list returned and the processor left behind do not depend on the
    clock or on whether progress is reported. *)
Lemma loop_independent (self : VideoProcessor) (v : Video)
    (clock1 clock2 : nat -> Q) (cb1 cb2 : bool) (sc : option (nat -> bool))
    (rest : list Raster) :
  forall poll st1 st2,
    core st1 = core st2 ->
    result (loop self v clock1 cb1 sc poll st1 rest)
    = result (loop self v clock2 cb2 sc poll st2 rest) /\
    self_after (loop self v clock1 cb1 sc poll st1 rest)
    = self_after (loop self v clock2 cb2 sc poll st2 rest).
Proof.
  induction rest as [|frame rest IH]; intros poll st1 st2 Hcore.
  - assert (frames st1 = frames st2) as Hf by (unfold core in Hcore; congruence).
    simpl. destruct (stop_requested sc poll); simpl; by rewrite Hf.
  - cbn [loop]. destruct (stop_requested sc poll).
    + assert (frames st1 = frames st2) as Hf
        by (unfold core in Hcore; congruence).
      simpl. by rewrite Hf.
    + apply IH. by apply body_core.
Qed.

(** X8.  If no two pictures of the stream score above [change_threshold]
    against each other under the configured strategy, a call returns at
    most one frame. *)
Theorem similar_pictures_one_candidate (ct : Q) (mfi : Z) (ml : bool)
    (fs : Z) (v : Video) (clock : nat -> Q) (cb : bool)
    (sc : option (nat -> bool)) :
  (forall a b,
     a ∈ stream v -> b ∈ stream v ->
     Qgt_bool (difference (init ct mfi ml fs) a b) ct = false) ->
  (length
     (returned
        (extract_frames_with_changes (init ct mfi ml fs) (Some v) clock cb sc))
   <= 1)%nat.
Proof. intros Hquiet. by apply quiet_run. Qed.

(** X9.  Neither the clock nor the presence of a progress callback changes
    what a call returns or what it stores in the processor. *)
Theorem reporting_does_not_interfere (ct : Q) (mfi : Z) (ml : bool) (fs : Z)
    (cap : option Video) (clock1 clock2 : nat -> Q) (cb1 cb2 : bool)
    (sc : option (nat -> bool)) :
  let self := init ct mfi ml fs in
  result (extract_frames_with_changes self cap clock1 cb1 sc)
  = result (extract_frames_with_changes self cap clock2 cb2 sc) /\
  self_after (extract_frames_with_changes self cap clock1 cb1 sc)
  = self_after (extract_frames_with_changes self cap clock2 cb2 sc).
Proof.
  intros self. destruct cap as [v|]; [|done].
  by apply loop_independent.
Qed.

End Independence.

(** ** Further properties of remove_duplicate_frames *)

Section Kept.

Context `{K : Kernels}.
Variable self : VideoProcessor.
Variable t : Q.

(** Appending the survivors keeps the list free of a frame that matches an
    earlier one. *)
Lemma survivors_fresh (pending : list Frame) :
  forall kept,
    (forall (i j : nat) u c,
       (i < j)%nat -> kept !! i = Some u -> kept !! j = Some c ->
       is_match self t c u = false) ->
    forall (i j : nat) u c,
      (i < j)%nat ->
      (kept ++ survivors self t kept pending) !! i = Some u ->
      (kept ++ survivors self t kept pending) !! j = Some c ->
      is_match self t c u = false.
Proof.
  induction pending as [|x pending IH]; intros kept Hkept; simpl.
  - rewrite app_nil_r. exact Hkept.
  - destruct (has_image x && negb (existsb (is_match self t x) kept)) eqn:Hx;
      [|by apply IH].
    replace (kept ++ x :: survivors self t (kept ++ [x]) pending)
      with ((kept ++ [x]) ++ survivors self t (kept ++ [x]) pending)
      by (by rewrite <- app_assoc).
    apply IH. intros i j u c Hij Hi Hj.
    destruct (decide (j < length kept)%nat) as [Hlt|Hge].
    + rewrite lookup_app_l in Hi by lia. rewrite lookup_app_l in Hj by lia.
      by apply (Hkept i j).
    + assert (j = length kept) as ->.
      { apply lookup_lt_Some in Hj. rewrite length_app in Hj. simpl in Hj. lia. }
      rewrite lookup_app_l in Hi by lia.
      rewrite lookup_app_r, Nat.sub_diag in Hj by lia.
      simpl in Hj. injection Hj as <-.
      apply andb_true_iff in Hx as [_ Hx]. apply negb_true_iff in Hx.
      apply not_true_is_false. intros Hm.
      assert (existsb (is_match self t x) kept = true); [|congruence].
      apply existsb_exists. exists u. split; [|done].
      apply list_elem_of_In. by apply list_elem_of_lookup_2 in Hi.
Qed.

(** A pending candidate with an image is kept, or a kept frame matches
    it. *)
Lemma survivors_cover (pending : list Frame) :
  forall kept c,
    c ∈ pending -> has_image c = true ->
    c ∈ survivors self t kept pending \/
    exists u,
      u ∈ kept ++ survivors self t kept pending /\ is_match self t c u = true.
Proof.
  induction pending as [|x pending IH]; intros kept c Hc Hi.
  - by apply not_elem_of_nil in Hc.
  - simpl. apply elem_of_cons in Hc as [->|Hc].
    + rewrite Hi. simpl.
      destruct (existsb (is_match self t x) kept) eqn:Hex; simpl.
      * right. apply existsb_exists in Hex as (u & Hu & Hm).
        exists u. split; [|done]. apply elem_of_app. left.
        by apply list_elem_of_In.
      * left. by left.
    + destruct (has_image x && negb (existsb (is_match self t x) kept)).
      * destruct (IH (kept ++ [x]) c Hc Hi) as [Hin|(u & Hu & Hm)].
        -- left. by right.
        -- right. exists u. split; [|done]. by rewrite <- app_assoc in Hu.
      * by apply IH.
Qed.

(** Candidates with images none of which matches a frame before it all
    survive. *)
Lemma survivors_distinct (pending : list Frame) :
  forall kept,
    Forall (fun c => has_image c = true) pending ->
    (forall (i j : nat) u c,
       (i < j)%nat -> (length kept <= j)%nat ->
       (kept ++ pending) !! i = Some u -> (kept ++ pending) !! j = Some c ->
       is_match self t c u = false) ->
    survivors self t kept pending = pending.
Proof.
  induction pending as [|x pending IH]; intros kept Himg Hno; simpl; [done|].
  apply Forall_cons in Himg as [Hx Himg]. rewrite Hx. simpl.
  assert (existsb (is_match self t x) kept = false) as ->.
  { apply not_true_is_false. intros Hex.
    apply existsb_exists in Hex as (u & Hu & Hm).
    apply list_elem_of_In, list_elem_of_lookup in Hu as [i Hi].
    assert (i < length kept)%nat by (by apply lookup_lt_Some in Hi).
    rewrite (Hno i (length kept) u x) in Hm; try done; try lia.
    - by apply lookup_app_l_Some.
    - by rewrite lookup_app_r, Nat.sub_diag by lia. }
  simpl. f_equal. apply IH; [done|].
  intros i j u c Hij Hj Hi Hc. rewrite length_app in Hj. simpl in Hj.
  rewrite <- app_assoc in Hi, Hc. simpl in Hi, Hc.
  apply (Hno i j); try done. lia.
Qed.

End Kept.

Section KeptResults.

Context `{K : Kernels}.

(** X10.  In the list the pass returns, no frame matches a frame that
    stands before it: the result holds no duplicate by the pass's own
    test. *)
Theorem result_without_duplicates (self : VideoProcessor)
    (frames : list Frame) (t : Q) (cb : bool) :
  let out := unique_frames (remove_duplicate_frames self frames t cb) in
  forall (i j : nat) u c,
    (i < j)%nat -> out !! i = Some u -> out !! j = Some c ->
    is_match self t c u = false.
Proof.
  intros out. unfold out. rewrite remove_duplicate_frames_unique.
  destruct frames as [|f pending]; simpl.
  - intros i j u c _ Hi. by rewrite lookup_nil in Hi.
  - change (f :: survivors self t [f] pending)
      with ([f] ++ survivors self t [f] pending).
    apply survivors_fresh.
    intros i j u c Hij Hi Hj. apply lookup_lt_Some in Hj. simpl in Hj. lia.
Qed.

(** X11.  Every input frame that has an image is in the result or is
    matched by a frame of the result: nothing with an image is removed
    without a kept frame that stands for it. *)
Theorem removed_frames_are_represented (self : VideoProcessor)
    (frames : list Frame) (t : Q) (cb : bool) (c : Frame) :
  c ∈ frames ->
  has_image c = true ->
  let out := unique_frames (remove_duplicate_frames self frames t cb) in
  c ∈ out \/ exists u, u ∈ out /\ is_match self t c u = true.
Proof.
  intros Hc Hi out. unfold out. rewrite remove_duplicate_frames_unique.
  destruct frames as [|f pending]; [by apply not_elem_of_nil in Hc|].
  simpl. apply elem_of_cons in Hc as [->|Hc]; [left; by left|].
  destruct (survivors_cover self t pending [f] c Hc Hi) as [Hin|(u & Hu & Hm)].
  - left. by right.
  - right. by exists u.
Qed.

(** X12.  If every frame after the first has an image and no frame matches
    a frame before it, the pass returns its input unchanged. *)
Theorem distinct_frames_all_kept (self : VideoProcessor)
    (frames : list Frame) (t : Q) (cb : bool) :
  Forall (fun c => has_image c = true) (tail frames) ->
  (forall (i j : nat) u c,
     (i < j)%nat -> frames !! i = Some u -> frames !! j = Some c ->
     is_match self t c u = false) ->
  unique_frames (remove_duplicate_frames self frames t cb) = frames.
Proof.
  intros Himg Hno. rewrite remove_duplicate_frames_unique.
  destruct frames as [|f pending]; simpl; [done|]. f_equal.
  apply survivors_distinct; [done|].
  intros i j u c Hij _ Hi Hj. by apply (Hno i j).
Qed.

End KeptResults.

Section Counters.

Context `{K : Kernels}.
Variable self : VideoProcessor.
Variable t : Q.

(** A pair counts one removal exactly when it breaks the scan. *)
Lemma compare_pair_count (d : Prepared) (idx i : nat) (cf : option Feat)
    (ca : option Raster) (acc : Scan) :
  is_duplicate acc = false ->
  is_duplicate (fst (compare_pair self t d idx i cf ca acc))
  = snd (compare_pair self t d idx i cf ca acc) /\
  duplicates_removed (fst (compare_pair self t d idx i cf ca acc))
  = duplicates_removed acc
    + (if snd (compare_pair self t d idx i cf ca acc) then 1 else 0).
Proof.
  intros Hacc. unfold compare_pair.
  destruct (use_ml self), cf as [f|], (get_features d i) as [g|]; simpl;
    try destruct (Qle_bool t (dot f g)); simpl; try (split; [done|lia]);
    rewrite ?Hacc;
    destruct ca as [a|], (get_image d i) as [b|]; simpl;
    try (split; [done|lia]);
    destruct (try_ssim b a) as [s|]; simpl; try (split; [done|lia]);
    destruct (Qle_bool t s); simpl; split; done || lia.
Qed.

Lemma compare_with_unique_count (d : Prepared) (frames : list Frame)
    (idx : nat) (cf : option Feat) (ca : option Raster)
    (unique : list Frame) :
  forall acc,
    is_duplicate acc = false ->
    duplicates_removed
      (compare_with_unique self t d frames idx cf ca unique acc)
    = duplicates_removed acc
      + (if is_duplicate
              (compare_with_unique self t d frames idx cf ca unique acc)
         then 1 else 0).
Proof.
  induction unique as [|u unique IH]; intros acc Hacc; simpl.
  - rewrite Hacc. lia.
  - destruct (find_index frames u 0) as [i|]; [|by apply IH].
    destruct (compare_pair_count d idx i cf ca acc Hacc) as [Hd Hr].
    destruct (compare_pair self t d idx i cf ca acc) as [acc' broke].
    simpl in Hd, Hr. destruct broke.
    + rewrite Hd. exact Hr.
    + rewrite IH by done. rewrite Hr. lia.
Qed.

(** Each pending candidate ends up kept, counted as removed, or without an
    image. *)
Lemma dedup_loop_count (cb : bool) (d : Prepared) (frames : list Frame)
    (pending : list Frame) :
  forall (idx : nat) (st : Dedup),
    Z.of_nat
      (length (unique_frames (dedup_loop self t cb d frames idx pending st)))
    + removed (dedup_loop self t cb d frames idx pending st)
    + Z.of_nat (length (filter (fun f => has_image f = false) pending))
    = Z.of_nat (length (unique_frames st)) + removed st
      + Z.of_nat (length pending).
Proof.
  induction pending as [|c pending IH]; intros idx st; [simpl; lia|].
  assert (length (filter (fun f => has_image f = false) (c :: pending))
          = ((if has_image c then 0 else 1)
             + length (filter (fun f => has_image f = false) pending))%nat)
    as ->.
  { rewrite filter_cons. destruct (has_image c) eqn:Hc.
    - by rewrite decide_False by done.
    - by rewrite decide_True by done. }
  cbn [dedup_loop length]. cbv zeta.
  destruct (image c) as [| |r] eqn:Himg;
    [assert (has_image c = false) as -> by (unfold has_image; by rewrite Himg)
    |assert (has_image c = false) as -> by (unfold has_image; by rewrite Himg)
    |assert (has_image c = true) as -> by (unfold has_image; by rewrite Himg)];
    match goal with
    | |- context [dedup_loop self t cb d frames (S idx) pending ?s] =>
        pose proof (IH (S idx) s) as Hi
    end; cbn [unique_frames removed] in Hi; cbv beta iota; try lia.
  rewrite (compare_with_unique_count d frames idx) in Hi |- * by done.
  cbn [duplicates_removed] in Hi |- *.
  destruct (is_duplicate
              (compare_with_unique self t d frames idx (get_features d idx)
                 (get_image d idx) (unique_frames st)
                 (mkScan false (removed st) (compared st))));
    rewrite ?length_app in Hi; simpl in Hi; lia.
Qed.

(** The snapshots the loop sends: one for each position divisible by 10,
    each with stage [removing_duplicates]. *)
Lemma dedup_loop_reported (d : Prepared) (frames : list Frame)
    (pending : list Frame) :
  forall (idx : nat) (st : Dedup),
    (1 <= idx)%nat ->
    exists mid,
      reported (dedup_loop self t true d frames idx pending st)
      = reported st ++ mid /\
      Forall (fun s => s !! "stage" = Some (VStr "removing_duplicates")) mid /\
      Z.of_nat (length mid)
      = (Z.of_nat idx + Z.of_nat (length pending) - 1) / 10
        - (Z.of_nat idx - 1) / 10.
Proof.
  induction pending as [|c pending IH]; intros idx st Hidx.
  - exists []. simpl. rewrite app_nil_r. repeat split; [constructor|].
    rewrite Z.add_0_r. lia.
  - assert ((Z.of_nat idx) / 10 - (Z.of_nat idx - 1) / 10
            = if Z.of_nat idx mod 10 =? 0 then 1 else 0) as Hstep.
    { pose proof (Z.div_mod (Z.of_nat idx) 10 ltac:(lia)) as H1.
      pose proof (Z.div_mod (Z.of_nat idx - 1) 10 ltac:(lia)) as H2.
      pose proof (Z.mod_pos_bound (Z.of_nat idx) 10 ltac:(lia)) as H3.
      pose proof (Z.mod_pos_bound (Z.of_nat idx - 1) 10 ltac:(lia)) as H4.
      destruct (Z.eqb_spec (Z.of_nat idx mod 10) 0); lia. }
    assert (forall st',
              exists mid,
                reported (dedup_loop self t true d frames (S idx) pending st')
                = reported st' ++ mid /\
                Forall (fun s =>
                          s !! "stage" = Some (VStr "removing_duplicates")) mid /\
                Z.of_nat (length mid)
                = (Z.of_nat idx + Z.of_nat (length (c :: pending)) - 1) / 10
                  - Z.of_nat idx / 10) as IH'.
    { intros st'. destruct (IH (S idx) st' ltac:(lia)) as (mid & H1 & H2 & H3).
      exists mid. repeat split; try done. rewrite H3. simpl length.
      replace (Z.of_nat (S idx) + Z.of_nat (length pending) - 1)
        with (Z.of_nat idx + Z.of_nat (S (length pending)) - 1) by lia.
      replace (Z.of_nat (S idx) - 1) with (Z.of_nat idx) by lia. done. }
    assert (exists extra,
              (if true && (Z.of_nat idx mod 10 =? 0)
               then reported st
                      ++ [dedup_snapshot (Z.of_nat idx)
                            (Z.of_nat (length frames))
                            (inject_Z (Z.of_nat idx)
                             / inject_Z (Z.of_nat (length frames)) * 100)
                            (length (unique_frames st))]
               else reported st) = reported st ++ extra /\
              Forall (fun s =>
                        s !! "stage" = Some (VStr "removing_duplicates")) extra /\
              Z.of_nat (length extra)
              = if Z.of_nat idx mod 10 =? 0 then 1 else 0)
      as (extra & Hextra & Hstage & Hcount).
    { simpl andb. destruct (Z.of_nat idx mod 10 =? 0).
      - eexists. split; [reflexivity|]. split; [|done].
        repeat constructor.
      - exists []. rewrite app_nil_r. by repeat split. }
    cbn [dedup_loop]. cbv zeta. rewrite Hextra.
    destruct (image c);
      match goal with
      | |- context [dedup_loop self t true d frames (S idx) pending ?s] =>
          destruct (IH' s) as (mid & H1 & H2 & H3); rewrite H1
      end; cbn [reported]; exists (extra ++ mid);
      (split; [by rewrite app_assoc|]);
      (split; [by apply Forall_app|]);
      rewrite length_app; lia.
Qed.

Lemma dedup_loop_silent (d : Prepared) (frames : list Frame)
    (pending : list Frame) :
  forall (idx : nat) (st : Dedup),
    reported (dedup_loop self t false d frames idx pending st) = reported st.
Proof.
  induction pending as [|c pending IH]; intros idx st; simpl; [done|].
  destruct (image c); by rewrite IH.
Qed.

End Counters.

Section DedupReports.

Context `{K : Kernels}.

(** X13.  Every input frame is accounted for: the frames returned, the
    removals counted in [duplicates_removed] and the frames after the
    first that have no image add up to the size of the input.  So when
    every frame has an image, [duplicates_removed] is the difference of
    the two sizes. *)
Theorem frames_accounted (self : VideoProcessor) (frames : list Frame)
    (t : Q) (cb : bool) :
  let out := remove_duplicate_frames self frames t cb in
  Z.of_nat (length (unique_frames out)) + removed out
  + Z.of_nat (length (filter (fun f => has_image f = false) (tail frames)))
  = Z.of_nat (length frames).
Proof.
  intros out. unfold out.
  destruct frames as [|f [|g rest]]; try (simpl; lia).
  unfold remove_duplicate_frames. cbn [unique_frames removed tail].
  rewrite dedup_loop_count. simpl. lia.
Qed.

(** X14.  On two frames or more, a pass that is given a callback sends a
    first snapshot at 0 percent, then one snapshot for each position
    divisible by 10, and a last one at 100 percent that reports the number
    of frames returned and the removals counted; all have stage
    [removing_duplicates].  Without a callback nothing is sent. *)
Theorem dedup_progress (self : VideoProcessor) (frames : list Frame) (t : Q) :
  (2 <= length frames)%nat ->
  let out := remove_duplicate_frames self frames t true in
  reported (remove_duplicate_frames self frames t false) = [] /\
  exists first mid last,
    reported out = first :: mid ++ [last] /\
    Forall (fun s => s !! "stage" = Some (VStr "removing_duplicates"))
      (first :: mid ++ [last]) /\
    first !! "percentage" = Some (VNum 0) /\
    Z.of_nat (length mid) = (Z.of_nat (length frames) - 1) / 10 /\
    last !! "percentage" = Some (VNum 100) /\
    last !! "frames_after_dedup"
    = Some (VInt (Z.of_nat (length (unique_frames out)))) /\
    last !! "duplicates_removed" = Some (VInt (removed out)).
Proof.
  intros Hlen out. unfold out.
  destruct frames as [|f [|g rest]]; try (simpl in Hlen; lia).
  unfold remove_duplicate_frames. cbn [reported unique_frames removed].
  split; [by rewrite dedup_loop_silent|].
  match goal with
  | |- context [dedup_loop self t true ?d ?fr 1 ?p ?s] =>
      destruct (dedup_loop_reported self t d fr p 1 s ltac:(lia))
        as (mid & Hrep & Hstage & Hcount);
      set (final := dedup_loop self t true d fr 1 p s) in *
  end.
  cbn [reported] in Hrep.
  exists (dedup_snapshot 0 (Z.of_nat (length (f :: g :: rest))) 0 0), mid,
    (<["duplicates_removed" := VInt (removed final)]>
       (dedup_snapshot (Z.of_nat (length (f :: g :: rest)))
          (Z.of_nat (length (f :: g :: rest))) 100
          (length (unique_frames final)))).
  rewrite Hrep. split; [done|]. split; [|split; [|split; [|split; [|split]]]].
  - constructor; [unfold dedup_snapshot; by simplify_map_eq|].
    apply Forall_app. split; [done|].
    repeat constructor.
  - unfold dedup_snapshot. by simplify_map_eq.
  - rewrite Hcount. simpl length.
    replace (Z.of_nat 1 + Z.of_nat (S (length rest)) - 1)
      with (Z.of_nat (S (S (length rest))) - 1) by lia.
    replace (Z.of_nat 1 - 1) with 0 by lia.
    rewrite Z.div_0_l by lia. lia.
  - unfold dedup_snapshot. by simplify_map_eq.
  - unfold dedup_snapshot. by simplify_map_eq.
  - by simplify_map_eq.
Qed.

End DedupReports.

Section Comparisons.

Context `{K : Kernels}.
Variable self : VideoProcessor.
Variable t : Q.
Variable frames : list Frame.

(** The search returns the first position, so none after a position that
    holds the frame. *)
Lemma find_index_first (l : list Frame) (u : Frame) :
  forall (i0 j i : nat),
    l !! j = Some u -> find_index l u i0 = Some i -> (i <= i0 + j)%nat.
Proof.
  induction l as [|f l IH]; intros i0 j i Hj Hfind; [done|].
  simpl in Hfind. destruct j as [|j]; simpl in Hj.
  - injection Hj as ->. rewrite frame_eqb_refl in Hfind.
    injection Hfind as <-. lia.
  - destruct (frame_eqb f u).
    + injection Hfind as <-. lia.
    + specialize (IH (S i0) j i Hj Hfind). lia.
Qed.

Lemma compare_pair_calls (P : Comparison -> Prop) (d : Prepared)
    (idx i : nat) (cf : option Feat) (ca : option Raster) (acc : Scan) :
  Forall P (comparisons acc) ->
  P (mkComparison Ssim idx i) ->
  (use_ml self = true -> P (mkComparison Cosine idx i)) ->
  Forall P (comparisons (fst (compare_pair self t d idx i cf ca acc))).
Proof.
  intros Hacc Hs Hc. unfold compare_pair.
  assert (forall s, P (mkComparison s idx i) ->
                    Forall P (comparisons acc ++ [mkComparison s idx i])) as H1.
  { intros s Hp. apply Forall_app; split; [done|]. by repeat constructor. }
  assert (forall s s', P (mkComparison s idx i) -> P (mkComparison s' idx i) ->
            Forall P ((comparisons acc ++ [mkComparison s idx i])
                        ++ [mkComparison s' idx i])) as H2.
  { intros s s' Hp Hp'. apply Forall_app; split; [by apply H1|].
    by repeat constructor. }
  destruct (use_ml self) eqn:Hml, cf as [f|], (get_features d i) as [g|];
    simpl; try destruct (Qle_bool t (dot f g)); simpl; auto;
    destruct (is_duplicate acc), ca as [a|], (get_image d i) as [b|];
    simpl; auto;
    destruct (try_ssim b a) as [s|]; simpl; auto;
    destruct (Qle_bool t s); simpl; auto.
Qed.

(** A call of a scorer is for a candidate within the list, against the
    data at an earlier position; with ML off it is an SSIM call. *)
Lemma compare_with_unique_calls (d : Prepared) (idx : nat)
    (cf : option Feat) (ca : option Raster) (unique : list Frame) :
  (idx < length frames)%nat ->
  (forall u, u ∈ unique -> exists j : nat, (j < idx)%nat /\ frames !! j = Some u) ->
  forall acc,
    Forall (fun e =>
              (cmp_unique_idx e < cmp_idx e < length frames)%nat /\
              (use_ml self = false -> cmp_strategy e = Ssim))
      (comparisons acc) ->
    Forall (fun e =>
              (cmp_unique_idx e < cmp_idx e < length frames)%nat /\
              (use_ml self = false -> cmp_strategy e = Ssim))
      (comparisons (compare_with_unique self t d frames idx cf ca unique acc)).
Proof.
  intros Hidx. induction unique as [|u unique IH]; intros Hin acc Hacc;
    simpl; [done|].
  assert (forall w, w ∈ unique ->
            exists j : nat, (j < idx)%nat /\ frames !! j = Some w) as Hin'
    by (intros w Hw; apply Hin; by right).
  destruct (find_index frames u 0) as [i|] eqn:Hfind; [|by apply IH].
  destruct (Hin u ltac:(left)) as (j & Hj & Hu).
  pose proof (find_index_first frames u 0 j i Hu Hfind) as Hi.
  pose proof (compare_pair_calls _ d idx i cf ca acc Hacc) as Hlog.
  destruct (compare_pair self t d idx i cf ca acc) as [acc' broke].
  simpl in Hlog.
  assert (Forall (fun e =>
              (cmp_unique_idx e < cmp_idx e < length frames)%nat /\
              (use_ml self = false -> cmp_strategy e = Ssim))
            (comparisons acc')) as Hacc'.
  { apply Hlog; simpl.
    - split; [lia|done].
    - intros Hml. split; [lia|]. intros Hoff. congruence. }
  destruct broke; [done|]. by apply IH.
Qed.

Lemma dedup_loop_calls (cb : bool) (d : Prepared) (pending : list Frame) :
  forall (idx : nat) (st : Dedup),
    (forall (j : nat) c, pending !! j = Some c ->
       frames !! (idx + j)%nat = Some c) ->
    (forall u, u ∈ unique_frames st ->
       exists j : nat, (j < idx)%nat /\ frames !! j = Some u) ->
    Forall (fun e =>
              (cmp_unique_idx e < cmp_idx e < length frames)%nat /\
              (use_ml self = false -> cmp_strategy e = Ssim))
      (compared st) ->
    Forall (fun e =>
              (cmp_unique_idx e < cmp_idx e < length frames)%nat /\
              (use_ml self = false -> cmp_strategy e = Ssim))
      (compared (dedup_loop self t cb d frames idx pending st)).
Proof.
  induction pending as [|c pending IH]; intros idx st Hpos Hin Hlog;
    simpl; [done|].
  assert (frames !! idx = Some c) as Hc.
  { specialize (Hpos 0%nat c eq_refl). by rewrite Nat.add_0_r in Hpos. }
  assert (forall (j : nat) c', pending !! j = Some c' ->
            frames !! (S idx + j)%nat = Some c') as Hpos'.
  { intros j c' Hj. specialize (Hpos (S j) c' Hj).
    by replace (idx + S j)%nat with (S idx + j)%nat in Hpos by lia. }
  assert (forall u, u ∈ unique_frames st ->
            exists j : nat, (j < S idx)%nat /\ frames !! j = Some u) as Hin1.
  { intros u Hu. destruct (Hin u Hu) as (j & Hj & Hf). exists j.
    split; [lia|done]. }
  destruct (image c); simpl; try by apply IH.
  apply IH; try done; simpl.
  - intros u Hu.
    destruct (is_duplicate _); [by apply Hin1|].
    apply elem_of_app in Hu as [Hu|Hu]; [by apply Hin1|].
    apply list_elem_of_singleton in Hu as ->. exists idx.
    split; [lia|done].
  - apply compare_with_unique_calls; try done.
    by apply lookup_lt_Some in Hc.
Qed.

End Comparisons.

Section ComparisonResults.

Context `{K : Kernels}.

(** X15.  Every scorer call the pass makes compares a candidate of the
    list with data stored for an earlier position, never with itself or
    with a later frame; and when ML is off every call is an SSIM call. *)
Theorem comparisons_look_back (self : VideoProcessor) (frames : list Frame)
    (t : Q) (cb : bool) :
  Forall (fun e =>
            (cmp_unique_idx e < cmp_idx e < length frames)%nat /\
            (use_ml self = false -> cmp_strategy e = Ssim))
    (compared (remove_duplicate_frames self frames t cb)).
Proof.
  destruct frames as [|f [|g rest]]; try by constructor.
  unfold remove_duplicate_frames. cbn [compared].
  apply dedup_loop_calls; try done; simpl.
  intros u Hu. apply list_elem_of_singleton in Hu as ->.
  exists 0%nat. split; [lia|done].
Qed.

End ComparisonResults.

(** ** The accessors after a run *)

Section Thumbs.

Context `{K : Kernels} {Jpeg : Type}.
Variable thumbnail_jpeg : Raster -> Z * Z -> Result Jpeg.

(** A comprehension over elements that all yield a value yields the list
    of the values. *)
Lemma comprehension_all {A B : Type} (f : A -> Result B) (R : A -> B -> Prop)
    (l : list A) :
  Forall (fun x => exists y, f x = Returned y /\ R x y) l ->
  exists ys, comprehension f l = Returned ys /\ Forall2 R l ys.
Proof.
  induction 1 as [|x l (y & Hy & HR) _ (ys & Hys & Hall)]; simpl.
  - exists []. split; [done|constructor].
  - rewrite Hy, Hys. exists (y :: ys). split; [done|by constructor].
Qed.

(** X16.  After a call that ran to the end of the stream,
    [get_all_thumbnails] finds an image in every stored frame: if PIL
    encodes every picture of the stream, it returns one thumbnail per
    returned frame, in order, each made from the picture decoded at that
    frame's number. *)
Theorem thumbnails_after_run (ct : Q) (mfi : Z) (ml : bool) (fs : Z)
    (v : Video) (clock : nat -> Q) (cb : bool) (sc : option (nat -> bool))
    (max_size : Z * Z) :
  (forall k : nat, (k <= length (stream v))%nat -> stop_requested sc k = false) ->
  (forall r, r ∈ stream v -> exists b, thumbnail_jpeg r max_size = Returned b) ->
  let out :=
    extract_frames_with_changes (init ct mfi ml fs) (Some v) clock cb sc in
  exists thumbs,
    get_all_thumbnails thumbnail_jpeg (self_after out) max_size
    = Returned thumbs /\
    Forall2
      (fun f b =>
         exists r,
           stream v !! Z.to_nat (frame_number f) = Some r /\
           thumbnail_jpeg r max_size = Returned b)
      (returned out) thumbs.
Proof.
  intros Hnever Hpil out.
  destruct (extract_outcome (init ct mfi ml fs) v clock cb sc)
    as (done & rest & st & Hsplit & _ & Hf & _ & Hend).
  assert (length done <= length (stream v))%nat as Hlen
    by (rewrite Hsplit, length_app; lia).
  destruct Hend as [[Hstop _]|(_ & -> & Hout)];
    [by rewrite Hnever in Hstop|].
  rewrite app_nil_r in Hsplit. subst done.
  unfold out. rewrite Hout. unfold get_all_thumbnails. simpl.
  apply comprehension_all.
  eapply Forall_impl; [exact Hf|].
  intros f (_ & r & Hr & Himg & _).
  destruct (Hpil r) as [b Hb]; [by apply list_elem_of_lookup_2 in Hr|].
  exists b. unfold get_frame_thumbnail. rewrite Himg.
  split; [done|]. by exists r.
Qed.

End Thumbs.

(** ** The background job *)

Section Job.

Context `{K : Kernels} {Jpeg : Type}.
Variable thumbnail_jpeg : Raster -> Z * Z -> Result Jpeg.
Variable b64encode : Jpeg -> string.

Lemma validate_images (l : list Frame) :
  Forall (fun f => has_image f = true) l -> validate l = l.
Proof.
  induction 1 as [|f l Hf _ IH]; simpl; [done|].
  unfold has_image in Hf. destruct (image f); try done. by rewrite IH.
Qed.

Lemma kept_frames_short (self : VideoProcessor) (t : Q) (l : list Frame) :
  (1 <? length l)%nat = false -> kept_frames self t l = l.
Proof.
  destruct l as [|f [|g l]]; try done.
Qed.

Lemma kept_frames_nil (self : VideoProcessor) (t : Q) (l : list Frame) :
  kept_frames self t l = [] <-> l = [].
Proof. destruct l; done. Qed.

(** A call on an opened video returns a list, of frames taken from the
    stream. *)
Lemma extract_result (self : VideoProcessor) (v : Video) (clock : nat -> Q)
    (cb : bool) (sc : option (nat -> bool)) :
  let out := extract_frames_with_changes self (Some v) clock cb sc in
  result out = Returned (returned out) /\
  Forall (carries (stream v)) (returned out).
Proof.
  intros out.
  destruct (extract_outcome self v clock cb sc)
    as (done & rest & st & Hsplit & _ & Hf & _ & Hend).
  assert (result out = Returned (frames st)) as Hres
    by (unfold out; destruct Hend as [[_ ->]|(_ & _ & ->)]; done).
  unfold returned. rewrite Hres. split; [done|].
  eapply Forall_impl; [exact Hf|].
  intros f (Hpos & r & Hr & Hrest). split; [done|]. exists r.
  split; [|done]. rewrite Hsplit. by apply lookup_app_l_Some.
Qed.

(** The job on an opened video, told from the list that the duplicate
    pass keeps: the validation loop drops nothing of it. *)
Lemma job_on_opened_video (s : Session) (filepath : string) (threshold : Q)
    (min_interval frame_skip : Z) (v : Video) (clock : nat -> Q)
    (stop_flag : nat -> bool) (stop_after : bool) :
  let out :=
    extract_frames_with_changes (init threshold min_interval true frame_skip)
      (Some v) clock true (Some stop_flag) in
  let stored := kept_frames (self_after out) (95 # 100) (returned out) in
  Forall (carries (stream v)) stored /\
  exists pr,
    process_video_background thumbnail_jpeg b64encode (Some s) filepath
      threshold min_interval frame_skip (Some v) clock stop_flag stop_after
    = Some
        (let s1 :=
           match stored with
           | _ :: _ =>
               mkSession (Some stored) (Some (self_after out))
                 (session_thumbnails s) pr
           | [] =>
               mkSession (Some []) (session_processor s)
                 (session_thumbnails s) pr
           end in
         if stop_after then
           mkSession (session_frames s1) (session_processor s1)
             (match previews thumbnail_jpeg b64encode stored with
              | _ :: _ => Some (previews thumbnail_jpeg b64encode stored)
              | [] => session_thumbnails s
              end)
             (<["error" := None]>
                (<["message" :=
                     Some (VStr "Processing stopped by user. You can continue processing to extract more frames.")]>
                   (<["stopped" := Some (VBool true)]>
                      (<["stage" := Some (VStr "stopped")]> pr))))
         else
           match stored with
           | [] =>
               mkSession (Some []) (session_processor s)
                 (session_thumbnails s)
                 (<["stage" := Some (VStr "error")]>
                    (<["error" :=
                         Some (VStr "max_workers must be greater than 0")]>
                       (<["percentage" := Some (VNum 90)]>
                          (<["stage" := Some (VStr "generating_thumbnails")]>
                             pr))))
           | _ :: _ =>
               mkSession (Some stored) (Some (self_after out))
                 (Some (previews thumbnail_jpeg b64encode stored))
                 (<["completed" := Some (VBool true)]>
                    (<["percentage" := Some (VNum 100)]>
                       (<["stage" := Some (VStr "completed")]>
                          (update_progress
                             (<["percentage" := Some (VNum 90)]>
                                (<["stage" :=
                                     Some (VStr "generating_thumbnails")]> pr))
                             (<["stage" := VStr "generating_thumbnails"]>
                                (<["percentage" :=
                                     VNum (90 + inject_Z (Z.of_nat (length stored))
                                                / inject_Z (Z.of_nat (length stored))
                                                * 10)]>
                                   (<["frames_detected" :=
                                        VInt (Z.of_nat (length stored))]>
                                      ∅)))))))
           end).
Proof.
  intros out stored.
  destruct (extract_result (init threshold min_interval true frame_skip) v
              clock true (Some stop_flag)) as [Hres Hall].
  fold out in Hres, Hall.
  assert (Forall (carries (stream v)) stored) as Hstored.
  { apply Forall_forall. intros f Hf.
    eapply (proj1 (Forall_forall _ _) Hall), elem_of_sublist; [exact Hf|].
    apply kept_frames_sublist. }
  split; [done|].
  assert (validate stored = stored) as Hvalid.
  { apply validate_images. eapply Forall_impl; [exact Hstored|].
    intros f (_ & r & _ & Hi & _). unfold has_image. by rewrite Hi. }
  unfold process_video_background. cbv zeta. fold out. rewrite Hres.
  assert ((if (1 <? length (returned out))%nat
           then unique_frames
                  (remove_duplicate_frames (self_after out) (returned out)
                     (95 # 100) true)
           else returned out) = stored) as Hkept.
  { destruct (1 <? length (returned out))%nat eqn:Hlen.
    - apply remove_duplicate_frames_unique.
    - symmetry. by apply kept_frames_short. }
  rewrite Hkept, Hvalid.
  destruct (1 <? length (returned out))%nat; eexists;
    (destruct stored as [|f stored'] eqn:Hs; destruct stop_after;
     cbn [session_frames session_processor session_thumbnails
          session_progress default failed length]; try reflexivity).
Qed.

Lemma previews_of_images (pictures : list Raster) (l : list Frame) :
  (forall r, r ∈ pictures ->
     exists b, thumbnail_jpeg r (400, 300) = Returned b) ->
  Forall (carries pictures) l ->
  Forall2
    (fun f t =>
       thumb_frame_number t = frame_number f /\
       thumb_timestamp t = timestamp f /\
       thumb_width t = width f /\ thumb_height t = height f /\
       exists r b,
         pictures !! Z.to_nat (frame_number f) = Some r /\
         thumbnail_jpeg r (400, 300) = Returned b /\
         thumb_data t = "data:image/jpeg;base64," +:+ b64encode b)
    l (previews thumbnail_jpeg b64encode l).
Proof.
  intros Hpil. induction 1 as [|f l (_ & r & Hr & Hi & _) _ IH]; simpl;
    [constructor|].
  destruct (Hpil r) as [b Hb]; [by apply list_elem_of_lookup_2 in Hr|].
  unfold preview, get_frame_thumbnail. rewrite Hi, Hb.
  constructor; [|done]. simpl. repeat split. by exists r, b.
Qed.

Lemma previews_sublist (l : list Frame) :
  (thumb_frame_number <$> previews thumbnail_jpeg b64encode l)
  `sublist_of` (frame_number <$> l).
Proof.
  induction l as [|f l IH]; simpl; [done|].
  unfold preview. destruct (get_frame_thumbnail thumbnail_jpeg f (400, 300));
    simpl; [by apply sublist_skip|by apply sublist_cons].
Qed.

(** X17.  When the video file cannot be opened, the job ends with the
    stage ['error'] and the text of the exception under ['error'], and
    leaves every other progress entry, the frames, the processor and the
    thumbnails of the session as they were. *)
Theorem unopened_video_reported (s : Session) (filepath : string)
    (threshold : Q) (min_interval frame_skip : Z) (clock : nat -> Q)
    (stop_flag : nat -> bool) (stop_after : bool) :
  exists s',
    process_video_background thumbnail_jpeg b64encode (Some s) filepath
      threshold min_interval frame_skip None clock stop_flag stop_after
    = Some s' /\
    session_progress s' !! "stage" = Some (Some (VStr "error")) /\
    session_progress s' !! "error"
    = Some (Some (VStr ("Could not open video file: " +:+ filepath))) /\
    (forall key : string,
       key <> "stage" -> key <> "error" ->
       session_progress s' !! key = session_progress s !! key) /\
    session_frames s' = session_frames s /\
    session_processor s' = session_processor s /\
    session_thumbnails s' = session_thumbnails s.
Proof.
  eexists. split; [reflexivity|]. simpl.
  split; [by simplify_map_eq|]. split; [by simplify_map_eq|].
  split; [|done]. intros key H1 H2. by simplify_map_eq.
Qed.

(** X18.  On a video that opens, the job stores in the session exactly the
    frames that the duplicate pass at threshold 0.95 keeps of the
    candidates: the validation loop drops none of them.  The stored frames
    are candidates in their order, with rising frame numbers, each holding
    the picture decoded at its number; the processor is stored with them
    unless there is no frame. *)
Theorem job_stores_unique_candidates (s : Session) (filepath : string)
    (threshold : Q) (min_interval frame_skip : Z) (v : Video)
    (clock : nat -> Q) (stop_flag : nat -> bool) (stop_after : bool) :
  let out :=
    extract_frames_with_changes (init threshold min_interval true frame_skip)
      (Some v) clock true (Some stop_flag) in
  let stored :=
    unique_frames
      (remove_duplicate_frames (self_after out) (returned out) (95 # 100)
         true) in
  exists s',
    process_video_background thumbnail_jpeg b64encode (Some s) filepath
      threshold min_interval frame_skip (Some v) clock stop_flag stop_after
    = Some s' /\
    session_frames s' = Some stored /\
    stored `sublist_of` returned out /\
    increasing stored /\
    Forall (carries (stream v)) stored /\
    session_processor s'
    = match stored with
      | [] => session_processor s
      | _ :: _ => Some (self_after out)
      end.
Proof.
  intros out stored.
  destruct (job_on_opened_video s filepath threshold min_interval frame_skip v
              clock stop_flag stop_after) as (Hall & pr & Hjob).
  fold out in Hall, Hjob.
  assert (stored = kept_frames (self_after out) (95 # 100) (returned out))
    as Hstored by apply remove_duplicate_frames_unique.
  rewrite <- Hstored in Hall, Hjob.
  assert (stored `sublist_of` returned out) as Hsub
    by (rewrite Hstored; apply kept_frames_sublist).
  eexists. split; [exact Hjob|].
  split; [destruct stored, stop_after; reflexivity|].
  split; [done|]. split.
  { apply (sublist_increasing _ (returned out)); [done|].
    destruct (extract_invariant threshold min_interval true frame_skip
                (Some v) clock true (Some stop_flag))
      as (st & (_ & _ & _ & _ & _ & Hinc & _) & Hout).
    unfold out. by rewrite Hout. }
  split; [done|]. destruct stored, stop_after; reflexivity.
Qed.

(** X19.  When the extraction returns no frame and no stop was requested,
    the job does not end as completed: the thumbnail pool is asked for
    zero workers and raises, so the job ends with the stage ['error'] and
    the pool's message, an empty list of frames, and the processor and the
    thumbnails of the session as they were. *)
Theorem empty_extraction_ends_in_error (s : Session) (filepath : string)
    (threshold : Q) (min_interval frame_skip : Z) (v : Video)
    (clock : nat -> Q) (stop_flag : nat -> bool) :
  returned
    (extract_frames_with_changes (init threshold min_interval true frame_skip)
       (Some v) clock true (Some stop_flag)) = [] ->
  exists s',
    process_video_background thumbnail_jpeg b64encode (Some s) filepath
      threshold min_interval frame_skip (Some v) clock stop_flag false
    = Some s' /\
    session_progress s' !! "stage" = Some (Some (VStr "error")) /\
    session_progress s' !! "error"
    = Some (Some (VStr "max_workers must be greater than 0")) /\
    session_frames s' = Some [] /\
    session_processor s' = session_processor s /\
    session_thumbnails s' = session_thumbnails s.
Proof.
  intros Hempty.
  destruct (job_on_opened_video s filepath threshold min_interval frame_skip v
              clock stop_flag false) as (_ & pr & Hjob).
  rewrite Hempty in Hjob. simpl in Hjob.
  eexists. split; [exact Hjob|]. simpl.
  split; [by simplify_map_eq|]. split; [by simplify_map_eq|]. done.
Qed.

(** X20.  With a minimum interval of at least one frame, a video of at
    least one picture, and no stop requested, the job ends as completed:
    the stage is ['completed'], the percentage 100, ['completed'] is true,
    ['frames_detected'] is the number of frames stored, which is at least
    one and starts with frame 0, and the thumbnails are set, their frame
    numbers picked in order from those of the stored frames. *)
Theorem job_completes (s : Session) (filepath : string) (threshold : Q)
    (min_interval frame_skip : Z) (rate : Q) (total : Z) (r : Raster)
    (rest : list Raster) (clock : nat -> Q) (stop_flag : nat -> bool) :
  1 <= min_interval ->
  stop_flag 0%nat = false ->
  exists s' first others thumbnails,
    process_video_background thumbnail_jpeg b64encode (Some s) filepath
      threshold min_interval frame_skip (Some (mkVideo rate total (r :: rest)))
      clock stop_flag false
    = Some s' /\
    session_progress s' !! "stage" = Some (Some (VStr "completed")) /\
    session_progress s' !! "percentage" = Some (Some (VNum 100)) /\
    session_progress s' !! "completed" = Some (Some (VBool true)) /\
    session_frames s' = Some (first :: others) /\
    frame_number first = 0 /\ image first = PilImage r /\
    session_progress s' !! "frames_detected"
    = Some (Some (VInt (Z.of_nat (length (first :: others))))) /\
    session_thumbnails s' = Some thumbnails /\
    (thumb_frame_number <$> thumbnails)
    `sublist_of` (frame_number <$> first :: others).
Proof.
  intros Hmin Hflag.
  set (v := mkVideo rate total (r :: rest)).
  destruct (job_on_opened_video s filepath threshold min_interval frame_skip v
              clock stop_flag false) as (_ & pr & Hjob).
  destruct (first_frame_accepted_from_interval_one threshold min_interval
              true frame_skip rate total r rest clock true (Some stop_flag)
              Hmin Hflag) as (f & Hhead & Hnum & Himg).
  fold v in Hhead.
  destruct (returned
              (extract_frames_with_changes
                 (init threshold min_interval true frame_skip) (Some v) clock
                 true (Some stop_flag))) as [|g candidates] eqn:Hret;
    [done|].
  simpl in Hhead. injection Hhead as ->.
  cbn [kept_frames] in Hjob. cbv zeta in Hjob. cbv iota in Hjob.
  eexists _, f, _, _. split; [exact Hjob|].
  cbn [session_progress session_frames session_thumbnails].
  split; [by simplify_map_eq|]. split; [by simplify_map_eq|].
  split; [by simplify_map_eq|]. split; [done|]. split; [done|].
  split; [done|]. split.
  { unfold update_progress.
    rewrite !lookup_insert_ne by done.
    rewrite lookup_union_l'; [by rewrite lookup_fmap; simplify_map_eq|].
    rewrite lookup_fmap. by simplify_map_eq. }
  split; [done|]. apply previews_sublist.
Qed.

(** X21.  When the stop flag is found set after the extraction, the job
    ends with the stage ['stopped'], ['stopped'] true, the stop message,
    and ['error'] present with the value [None]; the thumbnails of the
    session are replaced by the previews of the stored frames if at least
    one preview could be made, and are left as they were otherwise. *)
Theorem stopped_job_reported (s : Session) (filepath : string) (threshold : Q)
    (min_interval frame_skip : Z) (v : Video) (clock : nat -> Q)
    (stop_flag : nat -> bool) :
  exists s' stored,
    process_video_background thumbnail_jpeg b64encode (Some s) filepath
      threshold min_interval frame_skip (Some v) clock stop_flag true
    = Some s' /\
    session_frames s' = Some stored /\
    session_progress s' !! "stage" = Some (Some (VStr "stopped")) /\
    session_progress s' !! "stopped" = Some (Some (VBool true)) /\
    session_progress s' !! "error" = Some None /\
    session_progress s' !! "message"
    = Some (Some (VStr "Processing stopped by user. You can continue processing to extract more frames.")) /\
    session_thumbnails s'
    = match previews thumbnail_jpeg b64encode stored with
      | [] => session_thumbnails s
      | _ :: _ => Some (previews thumbnail_jpeg b64encode stored)
      end.
Proof.
  destruct (job_on_opened_video s filepath threshold min_interval frame_skip v
              clock stop_flag true) as (_ & pr & Hjob).
  cbv zeta in Hjob.
  match type of Hjob with
  | context [previews _ _ ?l] => set (stored := l) in *
  end.
  eexists _, stored. split; [exact Hjob|].
  cbn [session_progress session_frames session_thumbnails].
  split; [by destruct stored|].
  split; [by simplify_map_eq|]. split; [by simplify_map_eq|].
  split; [by simplify_map_eq|]. split; [by simplify_map_eq|].
  by destruct (previews _ _ stored).
Qed.

(** X22.  If the thumbnail of every picture of the stream can be encoded
    and the extraction returned a frame, the job leaves one preview per
    stored frame, in the order of the frames, whether it ends completed or
    stopped: the preview at an index has the frame number, timestamp, width
    and height of the stored frame at that index, and the data URL of the
    thumbnail of the picture decoded at that number. *)
Theorem previews_match_frames (s : Session) (filepath : string)
    (threshold : Q) (min_interval frame_skip : Z) (v : Video)
    (clock : nat -> Q) (stop_flag : nat -> bool) (stop_after : bool) :
  (forall r, r ∈ stream v ->
     exists b, thumbnail_jpeg r (400, 300) = Returned b) ->
  returned
    (extract_frames_with_changes (init threshold min_interval true frame_skip)
       (Some v) clock true (Some stop_flag)) <> [] ->
  exists s' stored thumbnails,
    process_video_background thumbnail_jpeg b64encode (Some s) filepath
      threshold min_interval frame_skip (Some v) clock stop_flag stop_after
    = Some s' /\
    session_frames s' = Some stored /\
    session_thumbnails s' = Some thumbnails /\
    Forall2
      (fun f t =>
         thumb_frame_number t = frame_number f /\
         thumb_timestamp t = timestamp f /\
         thumb_width t = width f /\ thumb_height t = height f /\
         exists r b,
           stream v !! Z.to_nat (frame_number f) = Some r /\
           thumbnail_jpeg r (400, 300) = Returned b /\
           thumb_data t = "data:image/jpeg;base64," +:+ b64encode b)
      stored thumbnails.
Proof.
  intros Hpil Hsome.
  destruct (job_on_opened_video s filepath threshold min_interval frame_skip v
              clock stop_flag stop_after) as (Hall & pr & Hjob).
  pose proof (previews_of_images (stream v) _ Hpil Hall) as Hprev.
  destruct (kept_frames _ _ _) as [|f stored] eqn:Hkept;
    [by apply kept_frames_nil in Hkept|].
  remember (previews thumbnail_jpeg b64encode (f :: stored)) as made
    eqn:Hmade in *.
  destruct made as [|t thumbnails]; [inversion Hprev|].
  eexists _, (f :: stored), (t :: thumbnails). split; [exact Hjob|].
  destruct stop_after; done.
Qed.

End Job.

(** ** The stored frames are no input *)

Section Stored.

Context `{K : Kernels}.
Variable self : VideoProcessor.

Lemma body_clear (v : Video) (clock : nat -> Q) (cb : bool) (st : Locals)
    (frame : Raster) :
  body (clear self) v clock cb st frame = body self v clock cb st frame.
Proof. destruct self. reflexivity. Qed.

Lemma loop_clear (v : Video) (clock : nat -> Q) (cb : bool)
    (sc : option (nat -> bool)) (rest : list Raster) :
  forall poll st,
    result (loop (clear self) v clock cb sc poll st rest)
    = result (loop self v clock cb sc poll st rest) /\
    progress (loop (clear self) v clock cb sc poll st rest)
    = progress (loop self v clock cb sc poll st rest).
Proof.
  induction rest as [|frame rest IH]; intros poll st; cbn [loop];
    destruct (stop_requested sc poll);
    first [done | rewrite body_clear; apply IH].
Qed.

Lemma prepare_clear (frames : list Frame) :
  forall idx d, prepare (clear self) idx frames d = prepare self idx frames d.
Proof.
  induction frames as [|f frames IH]; intros idx d; simpl; [done|].
  rewrite IH. f_equal.
Qed.

Lemma compare_with_unique_clear (t : Q) (d : Prepared) (frames : list Frame)
    (idx : nat) (cf : option Feat) (ca : option Raster) (unique : list Frame) :
  forall acc,
    compare_with_unique (clear self) t d frames idx cf ca unique acc
    = compare_with_unique self t d frames idx cf ca unique acc.
Proof.
  induction unique as [|u unique IH]; intros acc; simpl; [done|].
  destruct (find_index frames u 0) as [i|]; [|apply IH].
  change (compare_pair (clear self) t d idx i cf ca acc)
    with (compare_pair self t d idx i cf ca acc).
  destruct (compare_pair self t d idx i cf ca acc) as [acc' [|]];
    [done|apply IH].
Qed.

Lemma dedup_loop_clear (t : Q) (cb : bool) (d : Prepared) (frames : list Frame)
    (pending : list Frame) :
  forall idx st,
    dedup_loop (clear self) t cb d frames idx pending st
    = dedup_loop self t cb d frames idx pending st.
Proof.
  induction pending as [|c pending IH]; intros idx st; simpl; [done|].
  destruct (image c); rewrite ?compare_with_unique_clear; apply IH.
Qed.

End Stored.

Section StoredResults.

Context `{K : Kernels} {Jpeg : Type}.
Variable thumbnail_jpeg : Raster -> Z * Z -> Result Jpeg.

(** X25.  After [clear] the processor serves no frame: every index raises
    [IndexError] and the list of thumbnails is empty.  The frames stored
    by an earlier call are no input of the detector or of the duplicate
    pass: cleared or not, the processor returns the same frames and sends
    the same snapshots on the same video, and keeps the same frames of the
    same candidates. *)
Theorem clear_forgets_frames (self : VideoProcessor) :
  (forall index : Z, get_frame_by_index (clear self) index = Raised "IndexError")
  /\
  (forall max_size : Z * Z,
     get_all_thumbnails thumbnail_jpeg (clear self) max_size = Returned []) /\
  (forall (cap : option Video) (clock : nat -> Q) (cb : bool)
          (sc : option (nat -> bool)),
     result (extract_frames_with_changes (clear self) cap clock cb sc)
     = result (extract_frames_with_changes self cap clock cb sc) /\
     progress (extract_frames_with_changes (clear self) cap clock cb sc)
     = progress (extract_frames_with_changes self cap clock cb sc)) /\
  (forall (frames : list Frame) (t : Q) (cb : bool),
     remove_duplicate_frames (clear self) frames t cb
     = remove_duplicate_frames self frames t cb).
Proof.
  split; [|split; [done|split]].
  - intros index. unfold get_frame_by_index. simpl.
    by destruct ((0 <=? index) && (index <? Z.of_nat 0)).
  - intros [v|] clock cb sc; [|done].
    unfold extract_frames_with_changes.
    change (initial (clear self) v cb) with (initial self v cb).
    apply loop_clear.
  - intros frames t cb. destruct frames as [|f [|g rest]]; try done.
    unfold remove_duplicate_frames. cbv zeta.
    by rewrite prepare_clear, dedup_loop_clear.
Qed.

End StoredResults.

(** ** The generators' selection *)

Section Selection.

Context `{K : Kernels} {Document : Type}.
Variable create_presentation : list Frame -> Result Document.

Lemma selected_frames_app (all_frames : list Frame) (i1 i2 : list Z)
    (l1 l2 : list Frame) :
  selected_frames all_frames i1 = Returned l1 ->
  selected_frames all_frames i2 = Returned l2 ->
  selected_frames all_frames (i1 ++ i2) = Returned (l1 ++ l2).
Proof.
  revert l1. induction i1 as [|i i1 IH]; intros l1 H1 H2; simpl in *.
  - by injection H1 as <-.
  - destruct ((0 <=? i) && (i <? Z.of_nat (length all_frames))); [|by apply IH].
    destruct (all_frames !! Z.to_nat i) as [f|]; [|done].
    destruct (selected_frames all_frames i1) as [l|] eqn:Hl; [|done].
    injection H1 as <-. by rewrite (IH l eq_refl H2).
Qed.

Lemma selected_frames_range (all_frames before : list Frame) :
  selected_frames (before ++ all_frames)
    (Z.of_nat <$> seq (length before) (length all_frames))
  = Returned all_frames.
Proof.
  revert before. induction all_frames as [|f l IH]; intros before; [done|].
  cbn [length seq fmap list_fmap selected_frames].
  assert ((0 <=? Z.of_nat (length before))
          && (Z.of_nat (length before)
              <? Z.of_nat (length (before ++ f :: l))) = true) as ->.
  { apply andb_true_iff. split; [apply Z.leb_le; lia|].
    apply Z.ltb_lt. rewrite length_app. simpl. lia. }
  rewrite Nat2Z.id, lookup_app_r, Nat.sub_diag by lia. simpl.
  specialize (IH (before ++ [f])).
  rewrite <- app_assoc, length_app in IH. simpl in IH.
  replace (length before + 1)%nat with (S (length before)) in IH by lia.
  by rewrite IH.
Qed.

(** X23.  The selection never raises: an index below zero or beyond the
    list is passed over, a negative one does not count from the end.  The
    frames it hands on are members of the list, at most one per index;
    when every index lies within the list they are the frames at the
    indices, in the order of the indices, repeated as the indices are. *)
Theorem selection_within_bounds (all_frames : list Frame)
    (selected_indices : list Z) :
  exists frames,
    selected_frames all_frames selected_indices = Returned frames /\
    create_from_selected_indices create_presentation all_frames
      selected_indices
    = create_presentation frames /\
    Forall (fun f => f ∈ all_frames) frames /\
    (length frames <= length selected_indices)%nat /\
    (Forall (fun i => i < 0 \/ Z.of_nat (length all_frames) <= i)
       selected_indices ->
     frames = []) /\
    (Forall (fun i => 0 <= i < Z.of_nat (length all_frames))
       selected_indices ->
     Forall2 (fun i f => all_frames !! Z.to_nat i = Some f)
       selected_indices frames).
Proof.
  assert (exists frames,
            selected_frames all_frames selected_indices = Returned frames /\
            Forall (fun f => f ∈ all_frames) frames /\
            (length frames <= length selected_indices)%nat /\
            (Forall (fun i => i < 0 \/ Z.of_nat (length all_frames) <= i)
               selected_indices ->
             frames = []) /\
            (Forall (fun i => 0 <= i < Z.of_nat (length all_frames))
               selected_indices ->
             Forall2 (fun i f => all_frames !! Z.to_nat i = Some f)
               selected_indices frames)) as (frames & Hsel & Hrest).
  { induction selected_indices as [|i rest (l & Hl & Hmem & Hlen & Hout & Hin)];
      simpl.
    { exists []. repeat split; try done; constructor. }
    rewrite Hl.
    destruct (Z.leb_spec 0 i) as [Hlo|Hlo]; simpl.
    - destruct (Z.ltb_spec i (Z.of_nat (length all_frames))) as [Hhi|Hhi].
      + destruct (lookup_lt_is_Some_2 all_frames (Z.to_nat i)) as [f Hf];
          [lia|].
        rewrite Hf. exists (f :: l). split; [done|].
        split; [constructor; [by eapply list_elem_of_lookup_2|done]|].
        split; [simpl; lia|]. split.
        * intros Hall. apply Forall_cons in Hall as [Hi _]. lia.
        * intros Hall. apply Forall_cons in Hall as [_ Hall].
          constructor; [done|by apply Hin].
      + exists l. split; [done|]. split; [done|]. split; [lia|]. split.
        * intros Hall. apply Forall_cons in Hall as [_ Hall]. by apply Hout.
        * intros Hall. apply Forall_cons in Hall as [Hi _]. lia.
    - exists l. split; [done|]. split; [done|]. split; [lia|]. split.
      + intros Hall. apply Forall_cons in Hall as [_ Hall]. by apply Hout.
      + intros Hall. apply Forall_cons in Hall as [Hi _]. lia. }
  exists frames. split; [done|]. split; [|done].
  unfold create_from_selected_indices. by rewrite Hsel.
Qed.

(** X24.  Selecting every index in turn gives the document of the whole
    list, and a selection made of two runs of indices hands on the frames
    of the first run followed by those of the second. *)
Theorem selecting_every_index (all_frames : list Frame) :
  create_from_selected_indices create_presentation all_frames
    (Z.of_nat <$> seq 0 (length all_frames))
  = create_presentation all_frames /\
  forall i1 i2 : list Z,
    exists l1 l2,
      selected_frames all_frames i1 = Returned l1 /\
      selected_frames all_frames i2 = Returned l2 /\
      selected_frames all_frames (i1 ++ i2) = Returned (l1 ++ l2).
Proof.
  split.
  - unfold create_from_selected_indices.
    pose proof (selected_frames_range all_frames []) as Hall.
    simpl in Hall. by rewrite Hall.
  - assert (forall idx, exists l, selected_frames all_frames idx = Returned l)
      as Htotal.
    { induction idx as [|i rest [l Hl]]; simpl; [by exists []|].
      rewrite Hl.
      destruct (Z.leb_spec 0 i) as [Hlo|Hlo]; simpl; [|by exists l].
      destruct (Z.ltb_spec i (Z.of_nat (length all_frames))) as [Hhi|Hhi];
        [|by exists l].
      destruct (lookup_lt_is_Some_2 all_frames (Z.to_nat i)) as [f ->];
        [lia|]. by eexists. }
    intros i1 i2. destruct (Htotal i1) as [l1 H1], (Htotal i2) as [l2 H2].
    exists l1, l2. split; [done|]. split; [done|].
    by apply selected_frames_app.
Qed.

End Selection.

(** ** The results on concrete inputs *)





(** C7, the claim as first stated, fails: on four frames the pass keeps
    three at threshold 0.5 and two at threshold 0.8.  At 0.8 the second
    frame is kept and takes the third and the fourth with it; at 0.5 it is
    a duplicate of the first, and the third and fourth are kept. *)
Lemma raising_threshold_shrinks_output :
  let frames := [toy_frame 0 0; toy_frame 1 1; toy_frame 2 2; toy_frame 3 3] in
  (5 # 10 <= 8 # 10)%Q /\
  (length (unique_frames
             (remove_duplicate_frames toy_processor frames (8 # 10) false))
   < length (unique_frames
               (remove_duplicate_frames toy_processor frames (5 # 10) false)))%nat.
Proof.
  cbv zeta. split.
  - unfold Qle. simpl. lia.
  - vm_compute. lia.
Qed.

Lemma threshold_raise_witness :
  (4 # 10 <= 8 # 10)%Q /\
  unique_frames
    (remove_duplicate_frames toy_processor [toy_frame 0 0; toy_frame 1 2]
       (8 # 10) true)
  = [toy_frame 0 0; toy_frame 1 2].
Proof.
  assert (4 # 10 <= 8 # 10)%Q as Hle by (unfold Qle; simpl; lia).
  split; [exact Hle|].
  destruct (threshold_raise (K := toy) toy_processor
              [toy_frame 0 0; toy_frame 1 2] (4 # 10) (8 # 10) true Hle)
    as [_ Hall].
  apply Hall. vm_compute. reflexivity.
Defined.

Lemma stop_returns_prefix_witness :
  (1 <= length (stream (toy_video [0; 5; 0]%nat)))%nat /\
  Nat.eqb 1 1 = true /\
  exists l,
    result
      (extract_frames_with_changes (@init toy (3 # 10) 1 false 1)
         (Some (toy_video [0; 5; 0]%nat)) toy_clock true (Some (Nat.eqb 1)))
    = Returned l /\
    l `prefix_of`
      returned
        (extract_frames_with_changes (@init toy (3 # 10) 1 false 1)
           (Some (toy_video [0; 5; 0]%nat)) toy_clock true None).
Proof.
  assert (1 <= length (stream (toy_video [0; 5; 0]%nat)))%nat as Hk
    by (simpl; lia).
  split; [exact Hk|]. split; [reflexivity|].
  exact (proj1 (stop_returns_prefix (K := toy) (3 # 10) 1 false 1
                  (toy_video [0; 5; 0]%nat) toy_clock toy_clock true true
                  (Nat.eqb 1) 1 Hk eq_refl)).
Defined.

Lemma frame_numbers_increasing_witness :
  increasing [toy_frame 0 0; toy_frame 3 5] /\
  increasing
    (unique_frames
       (remove_duplicate_frames toy_processor [toy_frame 0 0; toy_frame 3 5]
          (95 # 100) true)).
Proof.
  assert (increasing [toy_frame 0 0; toy_frame 3 5]) as Hinc.
  { unfold increasing. repeat constructor. }
  split; [exact Hinc|].
  destruct (frame_numbers_increasing (K := toy) (3 # 10) 30 false 1
              (Some (toy_video [0; 5]%nat)) toy_clock true None)
    as [_ Hdedup].
  apply Hdedup. exact Hinc.
Defined.

Lemma short_input_untouched_witness :
  (length [toy_frame 0 0] <= 1)%nat /\
  reported (remove_duplicate_frames toy_processor [toy_frame 0 0] (95 # 100) true)
  = [].
Proof.
  assert (length [toy_frame 0 0] <= 1)%nat as Hlen by (simpl; lia).
  split; [exact Hlen|].
  destruct (short_input_untouched (K := toy) toy_processor [toy_frame 0 0]
              (95 # 100) true Hlen) as (_ & Hrep & _).
  exact Hrep.
Defined.

(** *** The further properties on concrete inputs *)

Lemma frames_stored_on_completion_witness :
  1 <= frame_skip toy_processor /\
  self_after
    (extract_frames_with_changes toy_processor (Some (toy_video [0; 5]%nat))
       toy_clock true (Some (fun _ => true)))
  = toy_processor.
Proof.
  assert (1 <= frame_skip toy_processor) as Hskip by (simpl; lia).
  split; [exact Hskip|].
  apply (proj2 (frames_stored_on_completion (K := toy) toy_processor
                  (toy_video [0; 5]%nat) toy_clock true
                  (Some (fun _ => true)) Hskip) 0%nat);
    [simpl; lia|reflexivity].
Defined.

Lemma stop_keeps_earlier_frames_witness :
  (1 <= length (stream (toy_video [0; 5; 0]%nat)))%nat /\
  Nat.eqb 1 1 = true /\
  Forall (fun f => 0 <= frame_number f < Z.of_nat 1)
    (returned
       (extract_frames_with_changes (@init toy (3 # 10) 1 false 1)
          (Some (toy_video [0; 5; 0]%nat)) toy_clock true (Some (Nat.eqb 1)))).
Proof.
  assert (1 <= length (stream (toy_video [0; 5; 0]%nat)))%nat as Hk
    by (simpl; lia).
  split; [exact Hk|]. split; [reflexivity|].
  exact (stop_keeps_earlier_frames (K := toy) (3 # 10) 1 false 1
           (toy_video [0; 5; 0]%nat) toy_clock true (Nat.eqb 1) 1 Hk eq_refl).
Defined.

Lemma progress_stages_witness :
  (forall k : nat,
     (k <= length (stream (toy_video [0; 5; 0]%nat)))%nat ->
     stop_requested None k = false) /\
  progress
    (extract_frames_with_changes (@init toy (3 # 10) 1 false 1)
       (Some (toy_video [0; 5; 0]%nat)) toy_clock false None)
  = [].
Proof.
  assert (forall k : nat,
            (k <= length (stream (toy_video [0; 5; 0]%nat)))%nat ->
            stop_requested None k = false) as Hnever
    by (intros k _; reflexivity).
  split; [exact Hnever|].
  exact (proj1 (progress_stages (K := toy) (3 # 10) 1 false 1
                  (toy_video [0; 5; 0]%nat) toy_clock None Hnever)).
Defined.

Lemma long_interval_one_candidate_witness :
  Z.of_nat (length (stream (toy_video [0; 5; 0]%nat))) <= 30 /\
  (length
     (returned
        (extract_frames_with_changes (@init toy (3 # 10) 30 false 1)
           (Some (toy_video [0; 5; 0]%nat)) toy_clock true None))
   <= 1)%nat.
Proof.
  assert (Z.of_nat (length (stream (toy_video [0; 5; 0]%nat))) <= 30) as Hlong
    by (simpl; lia).
  split; [exact Hlong|].
  exact (long_interval_one_candidate (K := toy) (3 # 10) 30 false 1
           (toy_video [0; 5; 0]%nat) toy_clock true None Hlong).
Defined.

Lemma similar_pictures_one_candidate_witness :
  (forall a b,
     a ∈ stream (toy_video [7; 7; 7]%nat) ->
     b ∈ stream (toy_video [7; 7; 7]%nat) ->
     Qgt_bool (difference (@init toy (3 # 10) 1 false 1) a b) (3 # 10) = false) /\
  (length
     (returned
        (extract_frames_with_changes (@init toy (3 # 10) 1 false 1)
           (Some (toy_video [7; 7; 7]%nat)) toy_clock true None))
   <= 1)%nat.
Proof.
  assert (forall a b,
            a ∈ stream (toy_video [7; 7; 7]%nat) ->
            b ∈ stream (toy_video [7; 7; 7]%nat) ->
            Qgt_bool (difference (@init toy (3 # 10) 1 false 1) a b) (3 # 10)
            = false) as Hquiet.
  { intros a b Ha Hb. simpl in Ha, Hb.
    assert (a = 7%nat) as ->
      by (repeat (apply elem_of_cons in Ha as [Ha|Ha]; [exact Ha|]);
          by apply not_elem_of_nil in Ha).
    assert (b = 7%nat) as ->
      by (repeat (apply elem_of_cons in Hb as [Hb|Hb]; [exact Hb|]);
          by apply not_elem_of_nil in Hb).
    reflexivity. }
  split; [exact Hquiet|].
  exact (similar_pictures_one_candidate (K := toy) (3 # 10) 1 false 1
           (toy_video [7; 7; 7]%nat) toy_clock true None Hquiet).
Defined.

Lemma result_without_duplicates_witness :
  (0 < 1)%nat /\
  unique_frames
    (remove_duplicate_frames toy_processor
       [toy_frame 0 0; toy_frame 1 0; toy_frame 2 5] (95 # 100) true) !! 0%nat
  = Some (toy_frame 0 0) /\
  unique_frames
    (remove_duplicate_frames toy_processor
       [toy_frame 0 0; toy_frame 1 0; toy_frame 2 5] (95 # 100) true) !! 1%nat
  = Some (toy_frame 2 5) /\
  is_match toy_processor (95 # 100) (toy_frame 2 5) (toy_frame 0 0) = false.
Proof.
  assert (0 < 1)%nat as Hlt by lia.
  split; [exact Hlt|]. split; [reflexivity|]. split; [reflexivity|].
  exact (result_without_duplicates (K := toy) toy_processor
           [toy_frame 0 0; toy_frame 1 0; toy_frame 2 5] (95 # 100) true
           0%nat 1%nat (toy_frame 0 0) (toy_frame 2 5) Hlt eq_refl eq_refl).
Defined.

Lemma removed_frames_are_represented_witness :
  toy_frame 1 0 ∈ [toy_frame 0 0; toy_frame 1 0] /\
  has_image (toy_frame 1 0) = true /\
  (toy_frame 1 0
   ∈ unique_frames
       (remove_duplicate_frames toy_processor [toy_frame 0 0; toy_frame 1 0]
          (95 # 100) true)
   \/ exists u,
        u ∈ unique_frames
              (remove_duplicate_frames toy_processor
                 [toy_frame 0 0; toy_frame 1 0] (95 # 100) true)
        /\ is_match toy_processor (95 # 100) (toy_frame 1 0) u = true).
Proof.
  assert (toy_frame 1 0 ∈ [toy_frame 0 0; toy_frame 1 0]) as Hin
    by (right; left).
  split; [exact Hin|]. split; [reflexivity|].
  exact (removed_frames_are_represented (K := toy) toy_processor
           [toy_frame 0 0; toy_frame 1 0] (95 # 100) true (toy_frame 1 0)
           Hin eq_refl).
Defined.

Lemma distinct_frames_all_kept_witness :
  Forall (fun c => has_image c = true) (tail [toy_frame 0 0; toy_frame 1 2]) /\
  (forall (i j : nat) u c,
     (i < j)%nat ->
     [toy_frame 0 0; toy_frame 1 2] !! i = Some u ->
     [toy_frame 0 0; toy_frame 1 2] !! j = Some c ->
     is_match toy_processor (95 # 100) c u = false) /\
  unique_frames
    (remove_duplicate_frames toy_processor [toy_frame 0 0; toy_frame 1 2]
       (95 # 100) true)
  = [toy_frame 0 0; toy_frame 1 2].
Proof.
  assert (Forall (fun c => has_image c = true)
            (tail [toy_frame 0 0; toy_frame 1 2])) as Himg
    by (repeat constructor).
  assert (forall (i j : nat) u c,
            (i < j)%nat ->
            [toy_frame 0 0; toy_frame 1 2] !! i = Some u ->
            [toy_frame 0 0; toy_frame 1 2] !! j = Some c ->
            is_match toy_processor (95 # 100) c u = false) as Hno.
  { intros i j u c Hij Hi Hj.
    destruct j as [|[|j]]; [lia| |by rewrite !lookup_cons, lookup_nil in Hj].
    destruct i as [|i]; [|lia].
    simpl in Hi, Hj. injection Hi as <-. injection Hj as <-. reflexivity. }
  split; [exact Himg|]. split; [exact Hno|].
  exact (distinct_frames_all_kept (K := toy) toy_processor
           [toy_frame 0 0; toy_frame 1 2] (95 # 100) true Himg Hno).
Defined.

Lemma dedup_progress_witness :
  (2 <= length [toy_frame 0 0; toy_frame 1 2])%nat /\
  reported
    (remove_duplicate_frames toy_processor [toy_frame 0 0; toy_frame 1 2]
       (95 # 100) false)
  = [].
Proof.
  assert (2 <= length [toy_frame 0 0; toy_frame 1 2])%nat as Hlen
    by (simpl; lia).
  split; [exact Hlen|].
  exact (proj1 (dedup_progress (K := toy) toy_processor
                  [toy_frame 0 0; toy_frame 1 2] (95 # 100) Hlen)).
Defined.

Lemma thumbnails_after_run_witness :
  (forall k : nat,
     (k <= length (stream (toy_video [0; 5; 0]%nat)))%nat ->
     stop_requested None k = false) /\
  (forall r : nat,
     r ∈ stream (toy_video [0; 5; 0]%nat) ->
     exists b : nat, (Returned r : Result nat) = Returned b) /\
  exists thumbs : list nat,
    get_all_thumbnails (K := toy) (fun r _ => Returned r)
      (self_after
         (extract_frames_with_changes (@init toy (3 # 10) 1 false 1)
            (Some (toy_video [0; 5; 0]%nat)) toy_clock true None))
      (400, 300)
    = Returned thumbs.
Proof.
  assert (forall k : nat,
            (k <= length (stream (toy_video [0; 5; 0]%nat)))%nat ->
            stop_requested None k = false) as Hnever
    by (intros k _; reflexivity).
  assert (forall r : nat,
            r ∈ stream (toy_video [0; 5; 0]%nat) ->
            exists b : nat, (Returned r : Result nat) = Returned b) as Hpil
    by (intros r _; by exists r).
  split; [exact Hnever|]. split; [exact Hpil|].
  destruct (thumbnails_after_run (K := toy) (fun r _ => Returned r) (3 # 10) 1
              false 1 (toy_video [0; 5; 0]%nat) toy_clock true None (400, 300)
              Hnever Hpil) as (thumbs & Hthumbs & _).
  by exists thumbs.
Defined.

Lemma empty_extraction_ends_in_error_witness :
  returned
    (extract_frames_with_changes (@init toy (3 # 10) 0 true 1)
       (Some (toy_video [0%nat])) toy_clock true (Some (fun _ => false)))
  = [] /\
  exists s',
    process_video_background (K := toy) toy_jpeg toy_b64 (Some toy_session)
      "clip.mp4" (3 # 10) 0 1 (Some (toy_video [0%nat])) toy_clock
      (fun _ => false) false
    = Some s' /\
    session_progress s' !! "stage" = Some (Some (VStr "error")).
Proof.
  assert (returned
            (extract_frames_with_changes (@init toy (3 # 10) 0 true 1)
               (Some (toy_video [0%nat])) toy_clock true
               (Some (fun _ => false))) = []) as Hempty by reflexivity.
  split; [exact Hempty|].
  destruct (empty_extraction_ends_in_error (K := toy) toy_jpeg toy_b64
              toy_session "clip.mp4" (3 # 10) 0 1 (toy_video [0%nat])
              toy_clock (fun _ => false) Hempty)
    as (s' & Hjob & Hstage & _).
  by exists s'.
Defined.

Lemma job_completes_witness :
  1 <= 30 /\
  (fun _ : nat => false) 0%nat = false /\
  exists s',
    process_video_background (K := toy) toy_jpeg toy_b64 (Some toy_session)
      "clip.mp4" (3 # 10) 30 1 (Some (toy_video [0; 5]%nat)) toy_clock
      (fun _ => false) false
    = Some s' /\
    session_progress s' !! "stage" = Some (Some (VStr "completed")).
Proof.
  assert (1 <= 30) as Hmin by lia.
  split; [exact Hmin|]. split; [reflexivity|].
  destruct (job_completes (K := toy) toy_jpeg toy_b64 toy_session "clip.mp4"
              (3 # 10) 30 1 25 2 0%nat [5%nat] toy_clock (fun _ => false)
              Hmin eq_refl)
    as (s' & first & others & thumbnails & Hjob & Hstage & _).
  by exists s'.
Defined.

Lemma previews_match_frames_witness :
  (forall r : nat,
     r ∈ stream (toy_video [0; 5; 0]%nat) ->
     exists b : nat, toy_jpeg r (400, 300) = Returned b) /\
  returned
    (extract_frames_with_changes (@init toy (3 # 10) 1 true 1)
       (Some (toy_video [0; 5; 0]%nat)) toy_clock true
       (Some (fun _ => false)))
  <> [] /\
  exists s' stored thumbnails,
    process_video_background (K := toy) toy_jpeg toy_b64 (Some toy_session)
      "clip.mp4" (3 # 10) 1 1 (Some (toy_video [0; 5; 0]%nat)) toy_clock
      (fun _ => false) true
    = Some s' /\
    session_frames s' = Some stored /\
    session_thumbnails s' = Some thumbnails /\
    length thumbnails = length stored.
Proof.
  assert (forall r : nat,
            r ∈ stream (toy_video [0; 5; 0]%nat) ->
            exists b : nat, toy_jpeg r (400, 300) = Returned b) as Hpil
    by (intros r _; by exists r).
  assert (returned
            (extract_frames_with_changes (@init toy (3 # 10) 1 true 1)
               (Some (toy_video [0; 5; 0]%nat)) toy_clock true
               (Some (fun _ => false))) <> []) as Hsome
    by (vm_compute; discriminate).
  split; [exact Hpil|]. split; [exact Hsome|].
  destruct (previews_match_frames (K := toy) toy_jpeg toy_b64 toy_session
              "clip.mp4" (3 # 10) 1 1 (toy_video [0; 5; 0]%nat) toy_clock
              (fun _ => false) true Hpil Hsome)
    as (s' & stored & thumbnails & Hjob & Hframes & Hthumbs & Hall).
  exists s', stored, thumbnails. repeat split; try done.
  symmetry. by eapply Forall2_length.
Defined.

(** *** The model on the scenarios of the specification *)

(** A hundred identical frames give one candidate, the first. *)
Example identical_frames_one_candidate :
  frame_number
  <$> returned
        (extract_frames_with_changes toy_processor
           (Some (toy_video (replicate 100 0%nat))) toy_clock false None)
  = [0].
Proof. vm_compute. reflexivity. Qed.

(** Two very different pictures alternating, spacing 1: the frame after a
    change is not scored, the next one shows the picture last scored, and
    the one after that is accepted. *)
Example alternating_frames :
  frame_number
  <$> returned
        (extract_frames_with_changes (@init toy (3 # 10) 1 false 1)
           (Some (toy_video [0; 5; 0; 5; 0; 5; 0]%nat)) toy_clock false None)
  = [0; 3; 6].
Proof. vm_compute. reflexivity. Qed.

(** [frame_skip = 3] on thirty frames: only positions 0, 3, ..., 27 are
    looked at, and 3 raw frames of spacing are one processed frame. *)
Example skip_three :
  frame_number
  <$> returned
        (extract_frames_with_changes (@init toy (3 # 10) 3 false 3)
           (Some (toy_video (seq 0 30))) toy_clock false None)
  = [0; 6; 12; 18; 24].
Proof. vm_compute. reflexivity. Qed.

(** Five candidates, the third showing the picture of the first: it is
    removed, the others stay in order. *)
Example third_is_duplicate_of_first :
  frame_number
  <$> unique_frames
        (remove_duplicate_frames toy_processor
           [toy_frame 0 0; toy_frame 40 2; toy_frame 80 0; toy_frame 120 3;
            toy_frame 160 4] (95 # 100) false)
  = [0; 40; 120; 160].
Proof. vm_compute. reflexivity. Qed.

(** With ML on, a pair the cosine test does not flag is still put to the
    SSIM test, which can flag it. *)
Example ssim_consulted_after_cosine :
  let out :=
    remove_duplicate_frames (@init toy_ml (3 # 10) 30 true 1)
      [toy_ml_frame 0 0; toy_ml_frame 40 0] (95 # 100) false in
  frame_number <$> unique_frames out = [0] /\
  compared out = [mkComparison Cosine 1 0; mkComparison Ssim 1 0].
Proof. vm_compute. split; reflexivity. Qed.

(** With [min_frame_interval = 0] on a longer stream the first candidate is
    the second frame. *)
Example interval_zero_starts_late :
  frame_number
  <$> returned
        (extract_frames_with_changes (@init toy (3 # 10) 0 false 1)
           (Some (toy_video [0; 0; 5; 5; 5; 0]%nat)) toy_clock false None)
  = [1; 3; 5].
Proof. vm_compute. reflexivity. Qed.
